(** * Embedder API of the runtime: src/api/environment.cc

    A shallow embedding of the functions of [environment.cc] and the
    properties they are specified to have: the debugging array-buffer
    allocator and its allocation records, default heap sizing, the default
    abort-on-uncaught-exception predicate, the per-context exports slot, the
    two stages of context initialisation, creation and teardown of an
    [Environment], and the allocation of thread ids.

    Conventions.
    - A [void*] is its address, a number; [nullptr] is address 0.
    - [size_t] and [uint64_t] values are numbers in [N]; the only arithmetic
      the file performs on them is the post-increment of the thread-id
      counter, whose wrap-around at 2^64 is written out.
    - A failed [CHECK], [CHECK_EQ], [CHECK_NE] or [FromJust] aborts the
      process: the call yields [Fatal] instead of a state.
    - What the C heap and libuv answer is an argument of the function that
      asks; the bootstrap scripts, the constructor of [Environment] and the
      flag constants of [node.h] are section variables, so the theorems hold
      whatever they are.
    - The engine is modelled as far as the file uses it: ordinary objects
      with own properties and private slots.
    - Three members of [Environment] that [FreeEnvironment] calls are
      defined elsewhere; they are modelled from their description and marked
      as such. *)

From Stdlib Require Import ZArith NArith Lia Bool.
From stdpp Require Import gmap strings list pretty.

Open Scope N_scope.

(** ** Aborting checks *)

Inductive checked (A : Type) : Type :=
| Done (a : A)
| Fatal.
Arguments Done {A} a.
Arguments Fatal {A}.

Definition check_bind {A B : Type} (c : checked A) (k : A -> checked B) : checked B :=
  match c with
  | Done a => k a
  | Fatal => Fatal
  end.

Notation "x ←! c ; k" := (check_bind c (fun x => k))
  (at level 20, c at level 100, k at level 200, format "x  ←!  c ;  k").

Definition is_done {A : Type} (c : checked A) : bool :=
  match c with Done _ => true | Fatal => false end.

(** ** Pointers *)

Abbreviation ptr := N (only parsing).
Abbreviation size_t := N (only parsing).

Definition nullptr : ptr := 0.

(** ** The array-buffer allocators *)

Module Allocator.

(** What the allocators ask of the C heap.  The pointer the heap answers is
    part of the call record: it is an input of the model. *)
Inductive heap_call : Type :=
| UncheckedCalloc (size : size_t) (ret : ptr)
| UncheckedMalloc (size : size_t) (ret : ptr)
| BaseAllocateUninitialized (size : size_t) (ret : ptr)
| BaseReallocate (data : ptr) (old_size size : size_t) (ret : ptr)
| BaseFree (data : ptr) (size : size_t).

(** [NodeArrayBufferAllocator]: the zero-fill toggle of the instance and the
    process-wide [--zero-fill-buffers] option. *)
Record NodeArrayBufferAllocator : Type := {
  zero_fill_field_ : N;
  zero_fill_all_buffers : bool
}.

(** [DebuggingArrayBufferAllocator]: the base allocator, the map
    [allocations_] from live pointers to their sizes, and the log of the
    calls that reached the heap. *)
Record DebuggingArrayBufferAllocator : Type := {
  base : NodeArrayBufferAllocator;
  allocations_ : gmap N N;
  heap_log : list heap_call
}.

Definition with_allocations (a : DebuggingArrayBufferAllocator) (m : gmap N N)
  : DebuggingArrayBufferAllocator :=
  {| base := base a; allocations_ := m; heap_log := heap_log a |}.

Definition log_call (a : DebuggingArrayBufferAllocator) (c : heap_call)
  : DebuggingArrayBufferAllocator :=
  {| base := base a; allocations_ := allocations_ a;
     heap_log := heap_log a ++ [c] |}.

(** [NodeArrayBufferAllocator::Allocate]: which primitive serves the
    request. *)
Definition NodeAllocate (b : NodeArrayBufferAllocator) (size : size_t) (ret : ptr)
  : heap_call :=
  if negb (zero_fill_field_ b =? 0) || zero_fill_all_buffers b
  then UncheckedCalloc size ret
  else UncheckedMalloc size ret.

(** [RegisterPointerInternal] *)
Definition RegisterPointerInternal (data : ptr) (size : size_t)
    (a : DebuggingArrayBufferAllocator) : checked DebuggingArrayBufferAllocator :=
  if data =? nullptr then Done a
  else match allocations_ a !! data with
       | Some _ => Fatal                       (* CHECK_EQ(count(data), 0) *)
       | None => Done (with_allocations a (<[data := size]> (allocations_ a)))
       end.

(** [UnregisterPointerInternal] *)
Definition UnregisterPointerInternal (data : ptr) (size : size_t)
    (a : DebuggingArrayBufferAllocator) : checked DebuggingArrayBufferAllocator :=
  if data =? nullptr then Done a
  else match allocations_ a !! data with
       | None => Fatal                         (* CHECK_NE(it, end()) *)
       | Some recorded =>
           if (0 <? size) && negb (recorded =? size)
           then Fatal                          (* CHECK_EQ(it->second, size) *)
           else Done (with_allocations a (delete data (allocations_ a)))
       end.

(** [Allocate]; [ret] is the pointer the base allocation returns. *)
Definition Allocate (ret : ptr) (size : size_t) (a : DebuggingArrayBufferAllocator)
  : checked (ptr * DebuggingArrayBufferAllocator) :=
  let a1 := log_call a (NodeAllocate (base a) size ret) in
  a2 ←! RegisterPointerInternal ret size a1;
  Done (ret, a2).

(** [AllocateUninitialized] *)
Definition AllocateUninitialized (ret : ptr) (size : size_t)
    (a : DebuggingArrayBufferAllocator)
  : checked (ptr * DebuggingArrayBufferAllocator) :=
  let a1 := log_call a (BaseAllocateUninitialized size ret) in
  a2 ←! RegisterPointerInternal ret size a1;
  Done (ret, a2).

(** [Free] *)
Definition Free (data : ptr) (size : size_t) (a : DebuggingArrayBufferAllocator)
  : checked DebuggingArrayBufferAllocator :=
  a1 ←! UnregisterPointerInternal data size a;
  Done (log_call a1 (BaseFree data size)).

(** [Reallocate]; [ret] is the pointer the base reallocation returns. *)
Definition Reallocate (ret : ptr) (data : ptr) (old_size size : size_t)
    (a : DebuggingArrayBufferAllocator)
  : checked (ptr * DebuggingArrayBufferAllocator) :=
  let a1 := log_call a (BaseReallocate data old_size size ret) in
  if ret =? nullptr then
    if size =? 0 then
      a2 ←! UnregisterPointerInternal data old_size a1;
      Done (nullptr, a2)
    else Done (nullptr, a1)
  else
    a2 ←! (if data =? nullptr then Done a1
           else match allocations_ a1 !! data with
                | None => Fatal                (* CHECK_NE(it, end()) *)
                | Some _ =>
                    Done (with_allocations a1 (delete data (allocations_ a1)))
                end);
    a3 ←! RegisterPointerInternal ret size a2;
    Done (ret, a3).

(** [RegisterPointer] and [UnregisterPointer]: the same under the lock. *)
Definition RegisterPointer := RegisterPointerInternal.
Definition UnregisterPointer := UnregisterPointerInternal.

(** [~DebuggingArrayBufferAllocator]: [CHECK(allocations_.empty())]. *)
Definition Destroy (a : DebuggingArrayBufferAllocator) : checked unit :=
  if decide (allocations_ a = ∅) then Done tt else Fatal.

(** A fresh debugging allocator. *)
Definition fresh (b : NodeArrayBufferAllocator) : DebuggingArrayBufferAllocator :=
  {| base := b; allocations_ := ∅; heap_log := [] |}.

(** *** Sequences of calls *)

Inductive call : Type :=
| CallAllocate (ret : ptr) (size : size_t)
| CallAllocateUninitialized (ret : ptr) (size : size_t)
| CallFree (data : ptr) (size : size_t)
| CallReallocate (ret : ptr) (data : ptr) (old_size size : size_t).

Definition step (c : call) (a : DebuggingArrayBufferAllocator)
  : checked DebuggingArrayBufferAllocator :=
  match c with
  | CallAllocate ret size => r ←! Allocate ret size a; Done (snd r)
  | CallAllocateUninitialized ret size =>
      r ←! AllocateUninitialized ret size a; Done (snd r)
  | CallFree data size => Free data size a
  | CallReallocate ret data old_size size =>
      r ←! Reallocate ret data old_size size a; Done (snd r)
  end.

Fixpoint run (cs : list call) (a : DebuggingArrayBufferAllocator)
  : checked DebuggingArrayBufferAllocator :=
  match cs with
  | [] => Done a
  | c :: cs' => a' ←! step c a; run cs' a'
  end.

(** The pointer a call hands out, and the pointer it gives back. *)
Definition acquires (c : call) : option ptr :=
  match c with
  | CallAllocate ret _ | CallAllocateUninitialized ret _ =>
      if ret =? nullptr then None else Some ret
  | CallFree _ _ => None
  | CallReallocate ret _ _ _ => if ret =? nullptr then None else Some ret
  end.

Definition releases (c : call) : option ptr :=
  match c with
  | CallAllocate _ _ | CallAllocateUninitialized _ _ => None
  | CallFree data _ => if data =? nullptr then None else Some data
  | CallReallocate ret data _ size =>
      if data =? nullptr then None
      else if ret =? nullptr then (if size =? 0 then Some data else None)
      else Some data
  end.

(** The size recorded for the pointer a call hands out. *)
Definition requested (c : call) : size_t :=
  match c with
  | CallAllocate _ size | CallAllocateUninitialized _ size => size
  | CallFree _ size => size
  | CallReallocate _ _ _ size => size
  end.

Definition count_some {A : Type} (f : call -> option A) (cs : list call) : nat :=
  length (omap f cs).

Definition one_if {A : Type} (o : option A) : nat :=
  match o with Some _ => 1%nat | None => 0%nat end.

(** The effect of a call on the map, read off the pointers it gives back
    and hands out. *)
Definition drop_released (c : call) (m : gmap N N) : gmap N N :=
  match releases c with Some q => delete q m | None => m end.

Definition add_acquired (c : call) (m : gmap N N) : gmap N N :=
  match acquires c with Some p => <[p := requested c]> m | None => m end.

(** Sample allocators. *)
Definition plain : NodeArrayBufferAllocator :=
  {| zero_fill_field_ := 1; zero_fill_all_buffers := false |}.

Definition tracking (m : gmap N N) : DebuggingArrayBufferAllocator :=
  with_allocations (fresh plain) m.

(** Allocate 64 bytes, grow them to 128 elsewhere, free them. *)
Definition sample_calls : list call :=
  [CallAllocate 16 64; CallReallocate 32 16 64 128; CallFree 32 128].

(** The call that reaches the heap for a call of the debugging allocator. *)
Definition forwarded (b : NodeArrayBufferAllocator) (c : call) : heap_call :=
  match c with
  | CallAllocate ret size => NodeAllocate b size ret
  | CallAllocateUninitialized ret size => BaseAllocateUninitialized size ret
  | CallFree data size => BaseFree data size
  | CallReallocate ret data old_size size =>
      BaseReallocate data old_size size ret
  end.

(** What a call leaves of the tracking map, whatever it logs: [None] when
    it is fatal. *)
Definition tracked_after {A : Type} (proj : A → DebuggingArrayBufferAllocator)
    (r : checked A) : option (gmap N N) :=
  match r with
  | Done x => Some (allocations_ (proj x))
  | Fatal => None
  end.

End Allocator.

(** ** Default heap sizing *)

Module HeapSizing.

(** [Isolate::CreateParams], as far as this file touches it: the arguments
    of the last [constraints.ConfigureDefaults(physical_memory,
    virtual_memory_limit)], or [None] while the engine's built-in defaults
    stand. *)
Record CreateParams : Type := {
  constraints : option (N * N);
  array_buffer_allocator : ptr
}.

Definition ConfigureDefaults (physical_memory virtual_memory_limit : N)
    (params : CreateParams) : CreateParams :=
  {| constraints := Some (physical_memory, virtual_memory_limit);
     array_buffer_allocator := array_buffer_allocator params |}.

(** [SetIsolateCreateParamsForNode]; the two arguments are what
    [uv_get_constrained_memory()] and [uv_get_total_memory()] answer. *)
Definition SetIsolateCreateParamsForNode
    (uv_get_constrained_memory uv_get_total_memory : N)
    (params : CreateParams) : CreateParams :=
  let constrained_memory := uv_get_constrained_memory in
  let total_memory :=
    if 0 <? constrained_memory
    then N.min uv_get_total_memory constrained_memory
    else uv_get_total_memory in
  if 0 <? total_memory
  then ConfigureDefaults total_memory 0 params
  else params.

(** Parameters as [NewIsolate] builds them. *)
Definition default_params : CreateParams :=
  {| constraints := None; array_buffer_allocator := nullptr |}.

Definition GiB : N := 1073741824.

End HeapSizing.

(** ** Isolate set-up *)

Module IsolateSetup.
Import HeapSizing.

(** A function installed on an isolate: one of the runtime's own
    callbacks, or a function of the embedder, given by its address. *)
Inductive callback : Type :=
| cb_PerIsolateMessageListener
| cb_ShouldAbortOnUncaughtException
| cb_OnFatalError
| cb_PrepareStackTraceCallback
| cb_AllowWasmCodeGenerationCallback
| cb_PromiseRejectCallback
| cb_HostCleanupFinalizationGroupCallback
| cb_embedder (address : N).

Inductive MicrotasksPolicy : Type := kExplicit | kScoped | kAuto.

Inductive MessageErrorLevel : Type := kMessageError | kMessageWarning.

(** [IsolateSettings]; a callback field is [None] when it is null. *)
Record IsolateSettings : Type := {
  flags : N;
  policy : MicrotasksPolicy;
  should_abort_on_uncaught_exception_callback : option N;
  fatal_error_callback : option N;
  prepare_stack_trace_callback : option N;
  allow_wasm_code_generation_callback : option N;
  promise_reject_callback : option N;
  host_cleanup_finalization_group_callback : option N
}.

(** What this file sets on an isolate. *)
Record Isolate : Type := {
  message_listeners : list (callback * list MessageErrorLevel);
  abort_on_uncaught_exception_callback : option callback;
  fatal_error_handler : option callback;
  prepare_stack_trace_handler : option callback;
  microtasks_policy : MicrotasksPolicy;
  allow_wasm_code_generation_handler : option callback;
  promise_reject_handler : option callback;
  host_cleanup_finalization_group_handler : option callback;
  detailed_source_positions : bool
}.

(** An isolate on which nothing was set yet. *)
Definition blank_isolate : Isolate :=
  {| message_listeners := [];
     abort_on_uncaught_exception_callback := None;
     fatal_error_handler := None;
     prepare_stack_trace_handler := None;
     microtasks_policy := kAuto;
     allow_wasm_code_generation_handler := None;
     promise_reject_handler := None;
     host_cleanup_finalization_group_handler := None;
     detailed_source_positions := false |}.

(** [s.callback ? s.callback : fallback] *)
Definition or_default (given : option N) (fallback : callback) : callback :=
  match given with
  | Some address => cb_embedder address
  | None => fallback
  end.

(** The handler installed is the embedder's exactly when the settings name
    one. *)
Definition installed (given : option N) (fallback : callback)
    (slot : option callback) : Prop :=
  match given with
  | Some address => slot = Some (cb_embedder address)
  | None => slot = Some fallback
  end.

Section Flags.

(** The two flag bits and the default settings are declared in [node.h]. *)
Variable MESSAGE_LISTENER_WITH_ERROR_LEVEL : N.
Variable DETAILED_SOURCE_POSITIONS_FOR_PROFILING : N.
Variable default_settings : IsolateSettings.

(** [SetIsolateErrorHandlers] *)
Definition SetIsolateErrorHandlers (isolate : Isolate) (s : IsolateSettings)
  : Isolate :=
  {| message_listeners :=
       if negb (N.land (flags s) MESSAGE_LISTENER_WITH_ERROR_LEVEL =? 0)
       then message_listeners isolate
            ++ [(cb_PerIsolateMessageListener,
                 [kMessageError; kMessageWarning])]
       else message_listeners isolate;
     abort_on_uncaught_exception_callback :=
       Some (or_default (should_abort_on_uncaught_exception_callback s)
               cb_ShouldAbortOnUncaughtException);
     fatal_error_handler :=
       Some (or_default (fatal_error_callback s) cb_OnFatalError);
     prepare_stack_trace_handler :=
       Some (or_default (prepare_stack_trace_callback s)
               cb_PrepareStackTraceCallback);
     microtasks_policy := microtasks_policy isolate;
     allow_wasm_code_generation_handler :=
       allow_wasm_code_generation_handler isolate;
     promise_reject_handler := promise_reject_handler isolate;
     host_cleanup_finalization_group_handler :=
       host_cleanup_finalization_group_handler isolate;
     detailed_source_positions := detailed_source_positions isolate |}.

(** [SetIsolateMiscHandlers] *)
Definition SetIsolateMiscHandlers (isolate : Isolate) (s : IsolateSettings)
  : Isolate :=
  {| message_listeners := message_listeners isolate;
     abort_on_uncaught_exception_callback :=
       abort_on_uncaught_exception_callback isolate;
     fatal_error_handler := fatal_error_handler isolate;
     prepare_stack_trace_handler := prepare_stack_trace_handler isolate;
     microtasks_policy := policy s;
     allow_wasm_code_generation_handler :=
       Some (or_default (allow_wasm_code_generation_callback s)
               cb_AllowWasmCodeGenerationCallback);
     promise_reject_handler :=
       Some (or_default (promise_reject_callback s) cb_PromiseRejectCallback);
     host_cleanup_finalization_group_handler :=
       Some (or_default (host_cleanup_finalization_group_callback s)
               cb_HostCleanupFinalizationGroupCallback);
     detailed_source_positions :=
       if negb (N.land (flags s) DETAILED_SOURCE_POSITIONS_FOR_PROFILING =? 0)
       then true
       else detailed_source_positions isolate |}.

(** [SetIsolateUpForNode(isolate, settings)] *)
Definition SetIsolateUpForNode (isolate : Isolate) (settings : IsolateSettings)
  : Isolate :=
  SetIsolateMiscHandlers (SetIsolateErrorHandlers isolate settings) settings.

(** [SetIsolateUpForNode(isolate)] *)
Definition SetIsolateUpForNode_default (isolate : Isolate) : Isolate :=
  SetIsolateUpForNode isolate default_settings.

(** What the platform and the engine see of [NewIsolate]. *)
Inductive platform_event : Type :=
| RegisterIsolate (platform isolate event_loop : N)
| IsolateInitialize (isolate : N) (params : CreateParams).

Record Engines : Type := {
  platform_log : list platform_event;
  isolates : gmap N Isolate
}.

(** [NewIsolate(params, event_loop, platform)].  [allocated] is what
    [Isolate::Allocate()] answers, [None] for null; the two memory figures
    are what libuv reports.  The parameters are passed by pointer and come
    back as the function leaves them. *)
Definition NewIsolate (allocated : option N)
    (uv_get_constrained_memory uv_get_total_memory : N)
    (params : CreateParams) (event_loop platform : N) (w : Engines)
  : option N * CreateParams * Engines :=
  match allocated with
  | None => (None, params, w)
  | Some isolate =>
      let registered := platform_log w
                        ++ [RegisterIsolate platform isolate event_loop] in
      let params1 :=
        SetIsolateCreateParamsForNode uv_get_constrained_memory
          uv_get_total_memory params in
      let initialized := registered ++ [IsolateInitialize isolate params1] in
      (Some isolate, params1,
       {| platform_log := initialized;
          isolates := <[isolate := SetIsolateUpForNode_default blank_isolate]>
                        (isolates w) |})
  end.

(** [NewIsolate(allocator, event_loop, platform)] with a raw allocator
    pointer. *)
Definition NewIsolate_allocator (allocated : option N)
    (uv_get_constrained_memory uv_get_total_memory : N)
    (allocator : ptr) (event_loop platform : N) (w : Engines)
  : option N * CreateParams * Engines :=
  let params :=
    if allocator =? nullptr then default_params
    else {| constraints := constraints default_params;
            array_buffer_allocator := allocator |} in
  NewIsolate allocated uv_get_constrained_memory uv_get_total_memory
    params event_loop platform w.

(** [NewIsolate(allocator, event_loop)]; [main_platform] is what
    [GetMainThreadMultiIsolatePlatform()] answers. *)
Definition NewIsolate_main (main_platform : N) (allocated : option N)
    (uv_get_constrained_memory uv_get_total_memory : N)
    (allocator : ptr) (event_loop : N) (w : Engines)
  : option N * CreateParams * Engines :=
  NewIsolate_allocator allocated uv_get_constrained_memory
    uv_get_total_memory allocator event_loop main_platform w.

End Flags.

(** Sample settings: the message listener on, explicit microtasks, a
    fatal-error handler of the embedder at address 4096. *)
Definition sample_settings : IsolateSettings :=
  {| flags := 1; policy := kExplicit;
     should_abort_on_uncaught_exception_callback := None;
     fatal_error_callback := Some 4096;
     prepare_stack_trace_callback := None;
     allow_wasm_code_generation_callback := None;
     promise_reject_callback := None;
     host_cleanup_finalization_group_callback := None |}.

(** Settings that name no callback of the embedder: both flags on,
    explicit microtasks. *)
Definition callback_free_settings : IsolateSettings :=
  {| flags := 3; policy := kExplicit;
     should_abort_on_uncaught_exception_callback := None;
     fatal_error_callback := None;
     prepare_stack_trace_callback := None;
     allow_wasm_code_generation_callback := None;
     promise_reject_callback := None;
     host_cleanup_finalization_group_callback := None |}.

Definition no_engines : Engines := {| platform_log := []; isolates := ∅ |}.

End IsolateSetup.

(** ** The engine, as this file uses it *)

(** Modelled from the spec: the script engine is not in this file; it gives
    contexts with a global object, embedder-data slots and private slots
    reachable through a private key only, and property reads, writes and
    deletions.  [Get] looks a property up along the prototype chain and
    answers [Nothing] when it reaches an accessor that throws; [Set] answers
    [Nothing] on a setter that throws; [Delete] removes an own property and
    answers [Nothing] on an object whose deletions throw (a proxy with a
    throwing trap), whether the property is there or not.  [GetPrivate],
    [SetPrivate] and [SetPrototype] always answer.  An embedder-data slot
    can be read once it has been set. *)

Module Engine.

(** [v8::Maybe<T>] and [v8::MaybeLocal<T>]. *)
Inductive Maybe (A : Type) : Type :=
| Just (a : A)
| Nothing.
Arguments Just {A} a.
Arguments Nothing {A}.

Definition FromJust {A : Type} (m : Maybe A) : checked A :=
  match m with Just a => Done a | Nothing => Fatal end.

Definition ToLocal {A : Type} (m : Maybe A) : option A :=
  match m with Just a => Some a | Nothing => None end.

Definition IsEmpty {A : Type} (m : Maybe A) : bool :=
  match m with Just _ => false | Nothing => true end.

(** Script values; an object is its identity. *)
Inductive Value : Type :=
| VUndefined
| VNull
| VBoolean (b : bool)
| VString (s : string)
| VObject (id : nat).

Definition IsObject (v : Value) : bool :=
  match v with VObject _ => true | _ => false end.

Definition IsUndefined (v : Value) : bool :=
  match v with VUndefined => true | _ => false end.

Definition IsTrue (v : Value) : bool :=
  match v with VBoolean true => true | _ => false end.

(** Own properties of ordinary objects.  An accessor is given by what its
    getter and its setter answer; [Nothing] is a thrown exception. *)
Inductive Property : Type :=
| DataProperty (value : Value) (configurable : bool)
| AccessorProperty (getter : Maybe Value) (setter : Maybe unit)
    (configurable : bool).

Definition is_configurable (p : Property) : bool :=
  match p with
  | DataProperty _ c => c
  | AccessorProperty _ _ c => c
  end.

(** An object: its own properties, its private slots, its prototype, and
    whether deleting from it throws. *)
Record JSObject : Type := {
  properties : gmap string Property;
  privates : gmap string Value;
  prototype : Value;
  delete_throws : bool
}.

(** A context: its objects, the identity of its global object and of the
    initial object prototype, the next free identity, and the embedder data
    slots. *)
Record Context : Type := {
  objects : gmap nat JSObject;
  global_object : nat;
  object_prototype : nat;
  next_object : nat;
  embedder_data : gmap nat Value
}.

Definition empty_object (proto : Value) : JSObject :=
  {| properties := ∅; privates := ∅; prototype := proto;
     delete_throws := false |}.

Definition object_at (ctx : Context) (id : nat) : JSObject :=
  default (empty_object (VObject (object_prototype ctx))) (objects ctx !! id).

Definition with_objects (ctx : Context) (os : gmap nat JSObject) : Context :=
  {| objects := os; global_object := global_object ctx;
     object_prototype := object_prototype ctx;
     next_object := next_object ctx; embedder_data := embedder_data ctx |}.

Definition store_object (ctx : Context) (id : nat) (o : JSObject) : Context :=
  with_objects ctx (<[id := o]> (objects ctx)).

Definition with_properties (o : JSObject) (ps : gmap string Property) : JSObject :=
  {| properties := ps; privates := privates o; prototype := prototype o;
     delete_throws := delete_throws o |}.

(** [context->Global()] *)
Definition Global (ctx : Context) : nat := global_object ctx.

(** Modelled from the spec: [context->SetEmbedderData(index, value)] and
    [GetEmbedderData], the embedder-data slots of a context. *)
Definition SetEmbedderData (ctx : Context) (index : nat) (v : Value) : Context :=
  {| objects := objects ctx; global_object := global_object ctx;
     object_prototype := object_prototype ctx;
     next_object := next_object ctx;
     embedder_data := <[index := v]> (embedder_data ctx) |}.

(** The engine wants the slot to have been set before it is read: [None]
    stands for a read of a slot that never was. *)
Definition GetEmbedderData (ctx : Context) (index : nat) : option Value :=
  embedder_data ctx !! index.

(** Modelled from the spec: [Object::New(isolate)], a new object without
    properties. *)
Definition Object_New (ctx : Context) : nat * Context :=
  let id := next_object ctx in
  (id,
   {| objects := <[id := empty_object (VObject (object_prototype ctx))]>
                   (objects ctx);
      global_object := global_object ctx;
      object_prototype := object_prototype ctx;
      next_object := S id;
      embedder_data := embedder_data ctx |}).

(** The lookup of [key] from [obj] up the prototype chain, over at most
    [links] objects. *)
Fixpoint lookup_chain (links : nat) (ctx : Context) (obj : nat) (key : string)
  : Maybe Value :=
  match links with
  | O => Just VUndefined
  | S links' =>
      match properties (object_at ctx obj) !! key with
      | Some (DataProperty v _) => Just v
      | Some (AccessorProperty getter _ _) => getter
      | None =>
          match prototype (object_at ctx obj) with
          | VObject proto => lookup_chain links' ctx proto key
          | _ => Just VUndefined
          end
      end
  end.

(** Modelled from the spec: [object->Get(context, key)].  The objects of a
    context have identities below [next_object] and a prototype chain does
    not come back to an object, so a chain has no more than [next_object]
    links. *)
Definition Object_Get (ctx : Context) (obj : nat) (key : string) : Maybe Value :=
  lookup_chain (S (next_object ctx)) ctx obj key.

(** Modelled from the spec: [object->Set(context, key, value)]. *)
Definition Object_Set (ctx : Context) (obj : nat) (key : string) (v : Value)
  : Maybe bool * Context :=
  let o := object_at ctx obj in
  match properties o !! key with
  | None =>
      (Just true,
       store_object ctx obj
         (with_properties o (<[key := DataProperty v true]> (properties o))))
  | Some (DataProperty _ c) =>
      (Just true,
       store_object ctx obj
         (with_properties o (<[key := DataProperty v c]> (properties o))))
  | Some (AccessorProperty _ setter _) =>
      match setter with
      | Just _ => (Just true, ctx)
      | Nothing => (Nothing, ctx)
      end
  end.

(** Modelled from the spec: [object->Delete(context, key)].  On an object
    whose deletions throw it answers [Nothing]; otherwise it removes a
    configurable own property and does nothing when the property is
    absent. *)
Definition Object_Delete (ctx : Context) (obj : nat) (key : string)
  : Maybe bool * Context :=
  let o := object_at ctx obj in
  if delete_throws o then (Nothing, ctx)
  else
    match properties o !! key with
    | None => (Just true, ctx)
    | Some p =>
        if is_configurable p
        then (Just true,
              store_object ctx obj
                (with_properties o (delete key (properties o))))
        else (Just false, ctx)
    end.

(** Modelled from the spec: [object->SetPrototype(context, proto)]. *)
Definition Object_SetPrototype (ctx : Context) (obj : nat) (proto : Value)
  : Maybe bool * Context :=
  let o := object_at ctx obj in
  (Just true,
   store_object ctx obj
     {| properties := properties o; privates := privates o;
        prototype := proto; delete_throws := delete_throws o |}).

(** Modelled from the spec: [object->GetPrivate(context, key)]; the key is
    the name given to [Private::ForApi]. *)
Definition Object_GetPrivate (ctx : Context) (obj : nat) (key : string)
  : Maybe Value :=
  Just (default VUndefined (privates (object_at ctx obj) !! key)).

(** Modelled from the spec: [object->SetPrivate(context, key, value)]. *)
Definition Object_SetPrivate (ctx : Context) (obj : nat) (key : string)
    (v : Value) : Maybe bool * Context :=
  let o := object_at ctx obj in
  (Just true,
   store_object ctx obj
     {| properties := properties o; privates := <[key := v]> (privates o);
        prototype := prototype o; delete_throws := delete_throws o |}).

End Engine.

(** ** Per-context bootstrap *)

Module Bootstrap.
Import Engine.

Definition per_context_binding_exports : string :=
  "node:per_context_binding_exports".

(** [GetPerContextExports] *)
Definition GetPerContextExports (ctx : Context) : Maybe nat * Context :=
  let global := Global ctx in
  let key := per_context_binding_exports in
  match ToLocal (Object_GetPrivate ctx global key) with
  | None => (Nothing, ctx)
  | Some existing_value =>
      match existing_value with
      | VObject existing => (Just existing, ctx)
      | _ =>
          let '(exports, ctx1) := Object_New ctx in
          let '(stored, ctx2) :=
            Object_SetPrivate ctx1 (Global ctx1) key (VObject exports) in
          if IsEmpty stored then (Nothing, ctx2) else (Just exports, ctx2)
      end
  end.

(** One of the two deletions of [InitializeContextRuntime]:
    [delete global[object_name][property_name]], when [global[object_name]]
    can be read and is an object. *)
Definition delete_builtin (object_name property_name : string) (ctx : Context)
  : checked Context :=
  match ToLocal (Object_Get ctx (Global ctx) object_name) with
  | Some (VObject o) =>
      let '(deleted, ctx') := Object_Delete ctx o property_name in
      _ ←! FromJust deleted;
      Done ctx'
  | _ => Done ctx
  end.

(** [InitializeContextRuntime] *)
Definition InitializeContextRuntime (ctx : Context) : checked Context :=
  ctx1 ←! delete_builtin "Intl" "v8BreakIterator" ctx;
  delete_builtin "Atomics" "wake" ctx1.

Definition context_files : list string :=
  ["internal/per_context/primordials"; "internal/per_context/domexception"].

Section Scripts.

(** The bootstrap scripts are not part of this file: compiling one may
    fail, and running one changes the context as it pleases. *)
Variable Function : Type.
Variable LookupAndCompile : Context → string → list string → Maybe Function.
Variable Call : Function → Context → Value → list Value → Maybe Value * Context.
(** [ContextEmbedderIndex::kAllowWasmCodeGeneration] *)
Variable kAllowWasmCodeGeneration : nat.

(** The loop of [InitializeContextForSnapshot] over [context_files]. *)
Fixpoint run_context_files (files : list string) (exports primordials : nat)
    (ctx : Context) : bool * Context :=
  match files with
  | [] => (true, ctx)
  | module :: rest =>
      let parameters := ["global"; "exports"; "primordials"] in
      let arguments :=
        [VObject (Global ctx); VObject exports; VObject primordials] in
      match LookupAndCompile ctx module parameters with
      | Nothing => (false, ctx)
      | Just fn =>
          let '(result, ctx') := Call fn ctx VUndefined arguments in
          if IsEmpty result then (false, ctx')
          else run_context_files rest exports primordials ctx'
      end
  end.

(** [AllowWasmCodeGenerationCallback]; no answer is modelled for a slot
    that was never set. *)
Definition AllowWasmCodeGenerationCallback (ctx : Context) : option bool :=
  wasm_code_gen ← GetEmbedderData ctx kAllowWasmCodeGeneration;
  Some (IsUndefined wasm_code_gen || IsTrue wasm_code_gen).

(** [InitializeContextForSnapshot]; the per-context files run with the
    context entered, which this model does not track. *)
Definition InitializeContextForSnapshot (ctx : Context) : checked (bool * Context) :=
  let ctx0 := SetEmbedderData ctx kAllowWasmCodeGeneration (VBoolean true) in
  let '(primordials, ctx1) := Object_New ctx0 in
  let '(proto_set, ctx2) := Object_SetPrototype ctx1 primordials VNull in
  ok1 ←! FromJust proto_set;
  if negb ok1 then Done (false, ctx2) else
  let '(maybe_exports, ctx3) := GetPerContextExports ctx2 in
  match ToLocal maybe_exports with
  | None => Done (false, ctx3)
  | Some exports =>
      let '(prim_set, ctx4) :=
        Object_Set ctx3 exports "primordials" (VObject primordials) in
      ok2 ←! FromJust prim_set;
      if negb ok2 then Done (false, ctx4)
      else Done (run_context_files context_files exports primordials ctx4)
  end.

(** [InitializeContext] *)
Definition InitializeContext (ctx : Context) : checked (bool * Context) :=
  r ←! InitializeContextForSnapshot ctx;
  if negb (fst r) then Done (false, snd r)
  else
    ctx' ←! InitializeContextRuntime (snd r);
    Done (true, ctx').

(** [NewContext]; [created] is what [Context::New] answers, and an empty
    handle is [Nothing]. *)
Definition NewContext (created : Maybe Context) : checked (Maybe Context) :=
  match created with
  | Nothing => Done Nothing
  | Just context =>
      r ←! InitializeContext context;
      if negb (fst r) then Done Nothing else Done (Just (snd r))
  end.

End Scripts.

(** The property that [delete_builtin] is after cannot be found, or cannot
    be deleted. *)
Definition absent_or_fixed (object_name property_name : string)
    (ctx : Context) : Prop :=
  match Object_Get ctx (Global ctx) object_name with
  | Just (VObject o) =>
      match properties (object_at ctx o) !! property_name with
      | None => True
      | Some p => is_configurable p = false
      end
  | _ => True
  end.

(** Two contexts that differ at most in the properties named [keys]. *)
Definition same_but (keys : list string) (c c' : Context) : Prop :=
  Global c' = Global c
  ∧ object_prototype c' = object_prototype c
  ∧ next_object c' = next_object c
  ∧ embedder_data c' = embedder_data c
  ∧ ∀ o, privates (object_at c' o) = privates (object_at c o)
         ∧ prototype (object_at c' o) = prototype (object_at c o)
         ∧ ∀ k, k ∉ keys →
                properties (object_at c' o) !! k
                = properties (object_at c o) !! k.

(** Deleting from what the global object gives under [object_name] does
    not throw. *)
Definition deletes_quietly (object_name : string) (ctx : Context) : Prop :=
  match Object_Get ctx (Global ctx) object_name with
  | Just (VObject o) => delete_throws (object_at ctx o) = false
  | _ => True
  end.

(** Two contexts whose objects throw on deletion alike. *)
Definition same_traps (c c' : Context) : Prop :=
  ∀ o, delete_throws (object_at c' o) = delete_throws (object_at c o).

(** The object or the property that [delete_builtin] is after is not
    there: the global object, along its prototype chain, gives no object
    under [object_name], or gives one that does not throw on deletion and
    has no own property [property_name]. *)
Definition target_absent (object_name property_name : string) (ctx : Context)
  : Prop :=
  match Object_Get ctx (Global ctx) object_name with
  | Just (VObject o) =>
      delete_throws (object_at ctx o) = false
      ∧ properties (object_at ctx o) !! property_name = None
  | _ => True
  end.

(** A context whose global object has identity 0 and no properties. *)
Definition bare_context : Context :=
  {| objects := {[0%nat := empty_object VNull]};
     global_object := 0; object_prototype := 1; next_object := 2;
     embedder_data := ∅ |}.

(** A context whose global object has [Intl], an object with a configurable
    [v8BreakIterator], and no [Atomics]. *)
Definition intl_context : Context :=
  {| objects :=
       {[0%nat := {| properties := {["Intl" := DataProperty (VObject 1) true]};
                     privates := ∅; prototype := VObject 3;
                     delete_throws := false |};
         1%nat := {| properties :=
                       {["v8BreakIterator" := DataProperty (VObject 2) true]};
                     privates := ∅; prototype := VObject 3;
                     delete_throws := false |};
         3%nat := empty_object VNull]};
     global_object := 0; object_prototype := 3; next_object := 4;
     embedder_data := ∅ |}.

(** A context whose global object has [Intl], an object without
    [v8BreakIterator] whose deletions throw. *)
Definition throwing_intl_context : Context :=
  {| objects :=
       {[0%nat := {| properties := {["Intl" := DataProperty (VObject 1) true]};
                     privates := ∅; prototype := VObject 3;
                     delete_throws := false |};
         1%nat := {| properties := ∅; privates := ∅; prototype := VObject 3;
                     delete_throws := true |};
         3%nat := empty_object VNull]};
     global_object := 0; object_prototype := 3; next_object := 4;
     embedder_data := ∅ |}.

(** A context whose global object has no [Intl] of its own and inherits one,
    with a configurable [v8BreakIterator], from its prototype. *)
Definition inherited_intl_context : Context :=
  {| objects :=
       {[0%nat := {| properties := ∅; privates := ∅; prototype := VObject 2;
                     delete_throws := false |};
         1%nat := {| properties :=
                       {["v8BreakIterator" := DataProperty VNull true]};
                     privates := ∅; prototype := VObject 3;
                     delete_throws := false |};
         2%nat := {| properties := {["Intl" := DataProperty (VObject 1) true]};
                     privates := ∅; prototype := VObject 3;
                     delete_throws := false |};
         3%nat := empty_object VNull]};
     global_object := 0; object_prototype := 3; next_object := 4;
     embedder_data := ∅ |}.

(** Bootstrap scripts that compile or not as told, and do nothing. *)
Definition sample_LookupAndCompile (ok : bool) (ctx : Context) (id : string)
    (parameters : list string) : Maybe unit :=
  if ok then Just tt else Nothing.

Definition sample_Call (fn : unit) (ctx : Context) (receiver : Value)
    (arguments : list Value) : Maybe Value * Context :=
  (Just VUndefined, ctx).

End Bootstrap.

(** ** Environments *)

Module Env.
Import Engine.

(** [IsolateData]: the isolate, and the platform (if any) it runs on. *)
Record IsolateData : Type := {
  isolate : nat;
  platform : option nat
}.

(** What this file reads and writes of an [Environment]. *)
Record Environment : Type := {
  isolate_data : IsolateData;
  context : nat;
  args : list string;
  exec_args : list string;
  flags : N;
  thread_id : N;
  is_main_thread : bool;
  thread_stopper_stopped : bool;
  sub_worker_contexts : list nat;
  cleanup_hooks : list nat;
  at_exit_functions : list nat;
  abort_on_uncaught_exception : bool;
  should_abort_on_uncaught_toggle : N;
  inside_should_not_abort_on_uncaught_scope : bool
}.

(** Modelled from the spec: [Environment::is_stopping] is not in this file;
    the thread-stop flag is the only cancellation signal of an environment,
    and [is_stopping] reads it. *)
Definition is_stopping (env : Environment) : bool := thread_stopper_stopped env.

(** [env->thread_stopper()->set_stopped(value)] *)
Definition set_stopped (env : Environment) (value : bool) : Environment :=
  {| isolate_data := isolate_data env; context := context env;
     args := args env; exec_args := exec_args env; flags := flags env;
     thread_id := thread_id env; is_main_thread := is_main_thread env;
     thread_stopper_stopped := value;
     sub_worker_contexts := sub_worker_contexts env;
     cleanup_hooks := cleanup_hooks env;
     at_exit_functions := at_exit_functions env;
     abort_on_uncaught_exception := abort_on_uncaught_exception env;
     should_abort_on_uncaught_toggle := should_abort_on_uncaught_toggle env;
     inside_should_not_abort_on_uncaught_scope :=
       inside_should_not_abort_on_uncaught_scope env |}.

Definition with_sub_worker_contexts (env : Environment) (ws : list nat)
  : Environment :=
  {| isolate_data := isolate_data env; context := context env;
     args := args env; exec_args := exec_args env; flags := flags env;
     thread_id := thread_id env; is_main_thread := is_main_thread env;
     thread_stopper_stopped := thread_stopper_stopped env;
     sub_worker_contexts := ws;
     cleanup_hooks := cleanup_hooks env;
     at_exit_functions := at_exit_functions env;
     abort_on_uncaught_exception := abort_on_uncaught_exception env;
     should_abort_on_uncaught_toggle := should_abort_on_uncaught_toggle env;
     inside_should_not_abort_on_uncaught_scope :=
       inside_should_not_abort_on_uncaught_scope env |}.

Definition with_cleanup_hooks (env : Environment) (hs : list nat)
  : Environment :=
  {| isolate_data := isolate_data env; context := context env;
     args := args env; exec_args := exec_args env; flags := flags env;
     thread_id := thread_id env; is_main_thread := is_main_thread env;
     thread_stopper_stopped := thread_stopper_stopped env;
     sub_worker_contexts := sub_worker_contexts env;
     cleanup_hooks := hs;
     at_exit_functions := at_exit_functions env;
     abort_on_uncaught_exception := abort_on_uncaught_exception env;
     should_abort_on_uncaught_toggle := should_abort_on_uncaught_toggle env;
     inside_should_not_abort_on_uncaught_scope :=
       inside_should_not_abort_on_uncaught_scope env |}.

(** [env->set_abort_on_uncaught_exception(value)] *)
Definition set_abort_on_uncaught_exception (env : Environment) (value : bool)
  : Environment :=
  {| isolate_data := isolate_data env; context := context env;
     args := args env; exec_args := exec_args env; flags := flags env;
     thread_id := thread_id env; is_main_thread := is_main_thread env;
     thread_stopper_stopped := thread_stopper_stopped env;
     sub_worker_contexts := sub_worker_contexts env;
     cleanup_hooks := cleanup_hooks env;
     at_exit_functions := at_exit_functions env;
     abort_on_uncaught_exception := value;
     should_abort_on_uncaught_toggle := should_abort_on_uncaught_toggle env;
     inside_should_not_abort_on_uncaught_scope :=
       inside_should_not_abort_on_uncaught_scope env |}.

(** [ShouldAbortOnUncaughtException]; the argument is what
    [Environment::GetCurrent(isolate)] answers, [None] for [nullptr]. *)
Definition ShouldAbortOnUncaughtException (current : option Environment) : bool :=
  match current with
  | None => false
  | Some env =>
      (is_main_thread env || negb (is_stopping env))
      && negb (should_abort_on_uncaught_toggle env =? 0)
      && negb (inside_should_not_abort_on_uncaught_scope env)
  end.

(** What teardown does that can be seen from outside.  A hook is run with
    the environment as it is at that moment and the stack of entered
    contexts. *)
Inductive event : Type :=
| HandleScopeOpen (isolate : nat)
| HandleScopeClose (isolate : nat)
| ContextEnter (context : nat)
| ContextExit (context : nat)
| ThreadStopperSetStopped (thread : N)
| SubWorkerContextStopped (worker : nat)
| CleanupHookRun (hook : nat) (seen : Environment) (entered : list nat)
| AtExitFunctionRun (fn : nat) (seen : Environment) (entered : list nat)
| DrainTasks (platform isolate : nat)
| EnvironmentDeleted (env : Environment).

Section Teardown.

(** The embedder's state and its callbacks: a cleanup hook or an at-exit
    function reads the environment and changes the embedder's state. *)
Variable Embedder : Type.
Variable cleanup_hook : nat → Environment → Embedder → Embedder.
Variable at_exit_function : nat → Environment → Embedder → Embedder.

Record Process : Type := {
  entered_contexts : list nat;
  embedder : Embedder;
  trace : list event
}.

Definition emit (e : event) (w : Process) : Process :=
  {| entered_contexts := entered_contexts w; embedder := embedder w;
     trace := trace w ++ [e] |}.

Definition with_embedder (w : Process) (s : Embedder) : Process :=
  {| entered_contexts := entered_contexts w; embedder := s;
     trace := trace w |}.

(** [HandleScope handle_scope(isolate); Context::Scope context_scope(context);]
    and the two destructors at the end of the block. *)
Definition enter_scopes (isolate context : nat) (w : Process) : Process :=
  let w1 := emit (HandleScopeOpen isolate) w in
  {| entered_contexts := context :: entered_contexts w1;
     embedder := embedder w1;
     trace := trace w1 ++ [ContextEnter context] |}.

Definition leave_scopes (isolate context : nat) (w : Process) : Process :=
  let w1 :=
    {| entered_contexts := tail (entered_contexts w);
       embedder := embedder w;
       trace := trace w ++ [ContextExit context] |} in
  emit (HandleScopeClose isolate) w1.

(** Modelled from the spec: [Environment::stop_sub_worker_contexts] is not
    in this file; it stops any sub-worker contexts, after which the
    environment has none. *)
Definition stop_sub_worker_contexts (env : Environment) (w : Process)
  : Environment * Process :=
  (with_sub_worker_contexts env [],
   foldl (λ w' worker, emit (SubWorkerContextStopped worker) w') w
     (sub_worker_contexts env)).

(** Modelled from the spec: [Environment::RunCleanup] is not in this file;
    it runs the registered cleanup hooks, each removed from the environment
    once it has run. *)
Fixpoint run_cleanup_hooks (hooks : list nat) (env : Environment) (w : Process)
  : Environment * Process :=
  match hooks with
  | [] => (with_cleanup_hooks env [], w)
  | hook :: rest =>
      let seen := with_cleanup_hooks env (hook :: rest) in
      let w1 := with_embedder w (cleanup_hook hook seen (embedder w)) in
      let w2 := emit (CleanupHookRun hook seen (entered_contexts w1)) w1 in
      run_cleanup_hooks rest (with_cleanup_hooks env rest) w2
  end.

Definition RunCleanup (env : Environment) (w : Process) : Environment * Process :=
  run_cleanup_hooks (cleanup_hooks env) env w.

(** Modelled from the spec: [RunAtExit] is not in this file; it runs the
    at-exit callbacks of the environment. *)
Definition RunAtExit (env : Environment) (w : Process) : Process :=
  foldl (λ w' fn,
           let w1 := with_embedder w' (at_exit_function fn env (embedder w')) in
           emit (AtExitFunctionRun fn env (entered_contexts w1)) w1)
        w (at_exit_functions env).

(** [FreeEnvironment] *)
Definition FreeEnvironment (env : Environment) (w : Process) : Process :=
  let w0 := enter_scopes (isolate (isolate_data env)) (context env) w in
  let env1 := set_stopped env true in
  let w1 := emit (ThreadStopperSetStopped (thread_id env1)) w0 in
  let '(env2, w2) := stop_sub_worker_contexts env1 w1 in
  let '(env3, w3) := RunCleanup env2 w2 in
  let w4 := RunAtExit env3 w3 in
  let w5 := leave_scopes (isolate (isolate_data env)) (context env) w4 in
  let w6 :=
    match platform (isolate_data env3) with
    | Some p => emit (DrainTasks p (isolate (isolate_data env3))) w5
    | None => w5
    end in
  emit (EnvironmentDeleted env3) w6.

(** The callback an event stands for, applied to the embedder's state. *)
Definition replay (s : Embedder) (e : event) : Embedder :=
  match e with
  | CleanupHookRun hook seen _ => cleanup_hook hook seen s
  | AtExitFunctionRun fn seen _ => at_exit_function fn seen s
  | _ => s
  end.

(** The constructor of [Environment], the environment's bootstrap and the
    bootstrapper are not part of this file; the two flags are declared in
    [node.h]. *)
Variable new_Environment :
  IsolateData → nat → list string → list string → N → N → Environment.
Variable RunBootstrapping :
  Environment → Process → Maybe Value * Environment * Process.
Variable ExecuteBootstrapper :
  Environment → string → list string → Process →
  Maybe Value * Environment * Process.
Variable kOwnsProcessState : N.
Variable kPrepareForExecution : N.

Definition has_flag (flags flag : N) : bool := negb (N.land flags flag =? 0).

(** The environment [CreateEnvironment] hands to [RunBootstrapping]. *)
Definition constructed (isolate_data : IsolateData) (context : nat)
    (args exec_args : list string) (flags thread_id : N) : Environment :=
  let env :=
    new_Environment isolate_data context args exec_args flags thread_id in
  if has_flag flags kOwnsProcessState
  then set_abort_on_uncaught_exception env false
  else env.

(** [CreateEnvironment]; [None] is [nullptr]. *)
Definition CreateEnvironment (isolate_data : IsolateData) (context : nat)
    (args exec_args : list string) (flags thread_id : N) (w : Process)
  : option Environment * Process :=
  let should_run_prepare := has_flag flags kPrepareForExecution in
  let w0 := enter_scopes (isolate isolate_data) context w in
  let env := constructed isolate_data context args exec_args flags thread_id in
  let '(ret, w') :=
    let '(booted, env1, w1) := RunBootstrapping env w0 in
    if IsEmpty booted then (None, FreeEnvironment env1 w1)
    else if negb should_run_prepare then (Some env1, w1)
    else
      let parameters := ["require"; "markBootstrapComplete"] in
      let '(prepared, env2, w2) :=
        ExecuteBootstrapper env1 "internal/bootstrap/environment"
          parameters w1 in
      if IsEmpty prepared then (None, FreeEnvironment env2 w2)
      else (Some env2, w2) in
  (ret, leave_scopes (isolate isolate_data) context w').

(** The events of one teardown of [env], hooks aside. *)
Definition cleanup_events (env : Environment) (entered : list nat)
  : list event :=
  imap (λ i hook,
          CleanupHookRun hook
            (with_cleanup_hooks
               (with_sub_worker_contexts (set_stopped env true) [])
               (drop i (cleanup_hooks env)))
            entered)
       (cleanup_hooks env).

Definition torn_down (env : Environment) : Environment :=
  with_cleanup_hooks
    (with_sub_worker_contexts (set_stopped env true) []) [].

Definition at_exit_events (env : Environment) (entered : list nat)
  : list event :=
  (λ fn, AtExitFunctionRun fn (torn_down env) entered)
    <$> at_exit_functions env.

Definition drain_events (env : Environment) : list event :=
  match platform (isolate_data env) with
  | Some p => [DrainTasks p (isolate (isolate_data env))]
  | None => []
  end.

Definition teardown_events (env : Environment) (entered : list nat)
  : list event :=
  [HandleScopeOpen (isolate (isolate_data env)); ContextEnter (context env);
   ThreadStopperSetStopped (thread_id env)]
  ++ (SubWorkerContextStopped <$> sub_worker_contexts env)
  ++ cleanup_events env (context env :: entered)
  ++ at_exit_events env (context env :: entered)
  ++ [ContextExit (context env);
      HandleScopeClose (isolate (isolate_data env))]
  ++ drain_events env
  ++ [EnvironmentDeleted (torn_down env)].

(** The trace of a process whose last act was the full teardown of
    [env]. *)
Definition ends_in_teardown (env : Environment) (before after : Process) : Prop :=
  after = FreeEnvironment env before
  ∧ trace after = trace before ++ teardown_events env (entered_contexts before)
  ∧ last (trace after) = Some (EnvironmentDeleted (torn_down env)).

End Teardown.

Arguments entered_contexts {Embedder} _.
Arguments embedder {Embedder} _.
Arguments trace {Embedder} _.

(** A sample: a worker environment with one sub-worker, two cleanup hooks
    and one at-exit function, on a platform.  The embedder logs what each
    callback sees: its number, the stop flag, the sub-workers still there
    and the cleanup hooks still registered. *)
Definition sample_env : Environment :=
  {| isolate_data := {| isolate := 1; platform := Some 9%nat |};
     context := 5;
     args := ["node"]; exec_args := [];
     flags := 0; thread_id := 3;
     is_main_thread := false;
     thread_stopper_stopped := false;
     sub_worker_contexts := [40%nat];
     cleanup_hooks := [11%nat; 12%nat];
     at_exit_functions := [21%nat];
     abort_on_uncaught_exception := true;
     should_abort_on_uncaught_toggle := 1;
     inside_should_not_abort_on_uncaught_scope := false |}.

Definition sight : Type := nat * bool * list nat * list nat.

Definition log_sight (callback : nat) (seen : Environment) (log : list sight)
  : list sight :=
  log ++ [(callback, thread_stopper_stopped seen, sub_worker_contexts seen,
           cleanup_hooks seen)].

Definition idle : Process (list sight) :=
  {| entered_contexts := []; embedder := []; trace := [] |}.

(** A constructor, and bootstraps that fail or succeed as told. *)
Definition sample_new (d : IsolateData) (c : nat) (a e : list string)
    (f t : N) : Environment :=
  {| isolate_data := d; context := c; args := a; exec_args := e;
     flags := f; thread_id := t;
     is_main_thread := false;
     thread_stopper_stopped := false;
     sub_worker_contexts := [];
     cleanup_hooks := [11%nat];
     at_exit_functions := [];
     abort_on_uncaught_exception := true;
     should_abort_on_uncaught_toggle := 0;
     inside_should_not_abort_on_uncaught_scope := false |}.

Definition answer (ok : bool) : Maybe Value :=
  if ok then Just VUndefined else Nothing.

Definition sample_RunBootstrapping (ok : bool) (env : Environment)
    (w : Process (list sight)) : Maybe Value * Environment * Process (list sight) :=
  (answer ok, env, w).

Definition sample_ExecuteBootstrapper (ok : bool) (env : Environment)
    (id : string) (parameters : list string) (w : Process (list sight))
  : Maybe Value * Environment * Process (list sight) :=
  (answer ok, env, w).

Definition sample_isolate_data : IsolateData :=
  {| isolate := 1; platform := None |}.

(** The environment a callback was run on, or that was deleted. *)
Definition seen_by (e : event) : option Environment :=
  match e with
  | CleanupHookRun _ seen _ => Some seen
  | AtExitFunctionRun _ seen _ => Some seen
  | EnvironmentDeleted env => Some env
  | _ => None
  end.

Section Overload.

Variable Embedder : Type.
Variable cleanup_hook : nat → Environment → Embedder → Embedder.
Variable at_exit_function : nat → Environment → Embedder → Embedder.
Variable new_Environment :
  IsolateData → nat → list string → list string → N → N → Environment.
Variable RunBootstrapping :
  Environment → Process Embedder → Maybe Value * Environment * Process Embedder.
Variable ExecuteBootstrapper :
  Environment → string → list string → Process Embedder →
  Maybe Value * Environment * Process Embedder.
Variable kOwnsProcessState : N.
Variable kPrepareForExecution : N.
(** [EnvironmentFlags::kDefaultFlags], and the thread id that the
    declaration in [node.h] gives when none is passed. *)
Variable kDefaultFlags : N.
Variable default_thread_id : N.

(** [CreateEnvironment(isolate_data, context, argc, argv, exec_argc,
    exec_argv)]: the first [argc] strings of [argv] and the first
    [exec_argc] of [exec_argv] become the argument vectors. *)
Definition CreateEnvironment_argv (isolate_data : IsolateData) (context : nat)
    (argc : nat) (argv : list string) (exec_argc : nat)
    (exec_argv : list string) (w : Process Embedder)
  : option Environment * Process Embedder :=
  CreateEnvironment Embedder cleanup_hook at_exit_function new_Environment
    RunBootstrapping ExecuteBootstrapper kOwnsProcessState
    kPrepareForExecution
    isolate_data context (take argc argv) (take exec_argc exec_argv)
    (N.lor kDefaultFlags kPrepareForExecution) default_thread_id w.

End Overload.

(** The name under which [LoadEnvironment] registers a main script given as
    source text: ["embedder_main_" + std::to_string(env->thread_id())]. *)
Definition main_script_name (env : Environment) : string :=
  "embedder_main_" +:+ pretty (thread_id env).

End Env.

(** ** Thread ids *)

Module ThreadIds.

Record ThreadId : Type := { id : N }.

(** [static std::atomic<uint64_t> next_thread_id{0};] *)
Definition next_thread_id_initial : N := 0.

(** [AllocateEnvironmentThreadId]: [ThreadId { next_thread_id++ }] on a
    64-bit counter. *)
Definition AllocateEnvironmentThreadId (next_thread_id : N) : ThreadId * N :=
  ({| id := next_thread_id |}, (next_thread_id + 1) mod 2 ^ 64).

(** [n] allocations in a row, from the counter value [next]. *)
Fixpoint allocate_many (n : nat) (next_thread_id : N) : list ThreadId * N :=
  match n with
  | O => ([], next_thread_id)
  | S n' =>
      let '(t, next1) := AllocateEnvironmentThreadId next_thread_id in
      let '(ts, next2) := allocate_many n' next1 in
      (t :: ts, next2)
  end.

End ThreadIds.

(** ** Inspector parent handles *)

Module Inspector.
Import Env ThreadIds.

(** [static_cast<uint64_t>(-1)] *)
Definition invalid_thread_id : N := 2 ^ 64 - 1.

(** [GetInspectorParentHandle].  [HAVE_INSPECTOR] is the build option;
    [GetParentHandle] is the inspector agent of the environment.  [None]
    for the environment is a null pointer, [None] for the result an empty
    handle. *)
Definition GetInspectorParentHandle {Handle : Type} (HAVE_INSPECTOR : bool)
    (GetParentHandle : Environment → N → string → Handle)
    (env : option Environment) (thread_id : ThreadId) (url : string)
  : checked (option Handle) :=
  match env with
  | None => Fatal                              (* CHECK_NOT_NULL(env) *)
  | Some e =>
      if id thread_id =? invalid_thread_id
      then Fatal                               (* CHECK_NE(thread_id.id, -1) *)
      else if HAVE_INSPECTOR
           then Done (Some (GetParentHandle e (id thread_id) url))
           else Done None
  end.

End Inspector.

(** * Properties *)

Module AllocatorFacts.
Import Allocator.

Lemma allocations_log_call a c : allocations_ (log_call a c) = allocations_ a.
Proof. reflexivity. Qed.

Lemma allocations_with a m : allocations_ (with_allocations a m) = m.
Proof. reflexivity. Qed.

Lemma heap_log_with a m : heap_log (with_allocations a m) = heap_log a.
Proof. reflexivity. Qed.

Lemma Register_null size a : RegisterPointerInternal nullptr size a = Done a.
Proof. reflexivity. Qed.

Lemma Register_tracked data size a :
  data ≠ nullptr → is_Some (allocations_ a !! data) →
  RegisterPointerInternal data size a = Fatal.
Proof.
  intros Hn [s Hs]. unfold RegisterPointerInternal.
  destruct (N.eqb_spec data nullptr); [done|]. by rewrite Hs.
Qed.

Lemma Register_untracked data size a :
  data ≠ nullptr → allocations_ a !! data = None →
  RegisterPointerInternal data size a
  = Done (with_allocations a (<[data := size]> (allocations_ a))).
Proof.
  intros Hn Hs. unfold RegisterPointerInternal.
  destruct (N.eqb_spec data nullptr); [done|]. by rewrite Hs.
Qed.

Lemma Register_done_inv data size a a' :
  RegisterPointerInternal data size a = Done a' →
  (data = nullptr ∧ a' = a)
  ∨ (data ≠ nullptr ∧ allocations_ a !! data = None
     ∧ a' = with_allocations a (<[data := size]> (allocations_ a))).
Proof.
  unfold RegisterPointerInternal.
  destruct (N.eqb_spec data nullptr) as [->|Hn].
  - intros [= <-]. by left.
  - destruct (allocations_ a !! data) eqn:E; [done|].
    intros [= <-]. right. done.
Qed.

Lemma Unregister_null size a : UnregisterPointerInternal nullptr size a = Done a.
Proof. reflexivity. Qed.

Lemma Unregister_untracked data size a :
  data ≠ nullptr → allocations_ a !! data = None →
  UnregisterPointerInternal data size a = Fatal.
Proof.
  intros Hn Hs. unfold UnregisterPointerInternal.
  destruct (N.eqb_spec data nullptr); [done|]. by rewrite Hs.
Qed.

Lemma Unregister_mismatch data size recorded a :
  data ≠ nullptr → allocations_ a !! data = Some recorded →
  0 < size → recorded ≠ size →
  UnregisterPointerInternal data size a = Fatal.
Proof.
  intros Hn Hs Hpos Hne. unfold UnregisterPointerInternal.
  destruct (N.eqb_spec data nullptr); [done|]. rewrite Hs.
  destruct (N.ltb_spec 0 size); [|lia].
  destruct (N.eqb_spec recorded size); done.
Qed.

Lemma Unregister_ok data size recorded a :
  data ≠ nullptr → allocations_ a !! data = Some recorded →
  size = 0 ∨ recorded = size →
  UnregisterPointerInternal data size a
  = Done (with_allocations a (delete data (allocations_ a))).
Proof.
  intros Hn Hs Hok. unfold UnregisterPointerInternal.
  destruct (N.eqb_spec data nullptr); [done|]. rewrite Hs.
  destruct Hok as [->| ->]; [done|].
  destruct (N.eqb_spec size size); [|done].
  by rewrite andb_false_r.
Qed.

Lemma Unregister_done_inv data size a a' :
  UnregisterPointerInternal data size a = Done a' →
  (data = nullptr ∧ a' = a)
  ∨ (data ≠ nullptr
     ∧ (∃ recorded, allocations_ a !! data = Some recorded
                    ∧ (size = 0 ∨ recorded = size))
     ∧ a' = with_allocations a (delete data (allocations_ a))).
Proof.
  unfold UnregisterPointerInternal.
  destruct (N.eqb_spec data nullptr) as [->|Hn].
  - intros [= <-]. by left.
  - destruct (allocations_ a !! data) as [recorded|] eqn:E; [|done].
    destruct (N.ltb_spec 0 size) as [Hpos|Hz];
      destruct (N.eqb_spec recorded size) as [He|He]; simpl; try done;
      intros [= <-]; right; (split; [done|]); (split; [|done]);
      exists recorded; (split; [done|]); first [by right | left; lia].
Qed.

(** Every call that returns removes the record of the pointer it gives
    back, which was tracked, and then records the pointer it hands out,
    which was not. *)
Lemma step_done_inv c a a' :
  step c a = Done a' →
  allocations_ a' = add_acquired c (drop_released c (allocations_ a))
  ∧ (∀ q, releases c = Some q → is_Some (allocations_ a !! q))
  ∧ (∀ p, acquires c = Some p → drop_released c (allocations_ a) !! p = None).
Proof.
  unfold add_acquired, drop_released.
  destruct c as [ret size|ret size|data size|ret data old_size size]; simpl.
  - unfold Allocate; simpl.
    destruct (RegisterPointerInternal _ _ _) as [a2|] eqn:E; [|done].
    simpl. intros [= <-].
    apply Register_done_inv in E as [[-> ->]|(Hn & Hu & ->)].
    + simpl. done.
    + destruct (N.eqb_spec ret nullptr); [done|]. simpl in *.
      split; [done|]. split; [done|]. by intros p [= <-].
  - unfold AllocateUninitialized; simpl.
    destruct (RegisterPointerInternal _ _ _) as [a2|] eqn:E; [|done].
    simpl. intros [= <-].
    apply Register_done_inv in E as [[-> ->]|(Hn & Hu & ->)].
    + simpl. done.
    + destruct (N.eqb_spec ret nullptr); [done|]. simpl in *.
      split; [done|]. split; [done|]. by intros p [= <-].
  - unfold Free.
    destruct (UnregisterPointerInternal _ _ _) as [a1|] eqn:E; [|done].
    simpl. intros [= <-].
    apply Unregister_done_inv in E as [[-> ->]|(Hn & (r & Hr & _) & ->)].
    + simpl. done.
    + destruct (N.eqb_spec data nullptr); [done|]. simpl.
      split; [done|]. split; [|done]. intros q [= <-]. by eexists.
  - unfold Reallocate.
    set (a1 := log_call a _).
    destruct (N.eqb_spec ret nullptr) as [->|Hret].
    + destruct (N.eqb_spec size 0) as [->|Hsz].
      * destruct (UnregisterPointerInternal _ _ _) as [a2|] eqn:E; [|done].
        simpl. intros [= <-].
        apply Unregister_done_inv in E as [[-> ->]|(Hn & (r & Hr & _) & ->)].
        -- simpl. done.
        -- destruct (N.eqb_spec data nullptr); [done|]. simpl.
           split; [done|]. split; [|done]. intros q [= <-]. by eexists.
      * simpl. intros [= <-]. simpl.
        destruct (N.eqb_spec data nullptr); done.
    + destruct (N.eqb_spec data nullptr) as [->|Hdata]; simpl.
      * destruct (RegisterPointerInternal _ _ _) as [a3|] eqn:E; [|done].
        simpl. intros [= <-].
        apply Register_done_inv in E as [[-> ->]|(Hn & Hu & ->)]; [done|].
        simpl in *. split; [done|]. split; [done|]. by intros p [= <-].
      * destruct (allocations_ a !! data) as [r|] eqn:Hr; [|done]. simpl.
        destruct (RegisterPointerInternal _ _ _) as [a3|] eqn:E; [|done].
        simpl. intros [= <-].
        apply Register_done_inv in E as [[-> ->]|(Hn & Hu & ->)]; [done|].
        simpl in *. split; [done|].
        split; [by intros q [= <-]; eexists|]. by intros p [= <-].
Qed.

Lemma size_delete_tracked (m : gmap N N) (q : N) :
  is_Some (m !! q) → size m = S (size (delete q m)).
Proof.
  intros [x Hx].
  rewrite <- (insert_id m q x Hx) at 1.
  rewrite <- insert_delete_eq.
  apply map_size_insert_None, lookup_delete_eq.
Qed.

Lemma count_some_cons {A : Type} (f : call → option A) c cs :
  count_some f (c :: cs) = (one_if (f c) + count_some f cs)%nat.
Proof. unfold count_some. simpl. by destruct (f c). Qed.

Lemma step_balance c a a' :
  step c a = Done a' →
  (size (allocations_ a') + one_if (releases c)
   = size (allocations_ a) + one_if (acquires c))%nat.
Proof.
  intros (-> & Hrel & Hacq)%step_done_inv.
  unfold add_acquired, drop_released in *.
  destruct (releases c) as [q|], (acquires c) as [p|]; simpl.
  - rewrite map_size_insert_None by eauto.
    rewrite (size_delete_tracked (allocations_ a) q) by eauto. lia.
  - rewrite (size_delete_tracked (allocations_ a) q) by eauto. lia.
  - rewrite map_size_insert_None by eauto. lia.
  - lia.
Qed.

(** The number of records is the number of pointers handed out minus the
    number given back. *)
Lemma run_balance cs : ∀ a a',
  run cs a = Done a' →
  (size (allocations_ a') + count_some releases cs
   = size (allocations_ a) + count_some acquires cs)%nat.
Proof.
  induction cs as [|c cs IH]; intros a a'; simpl.
  - intros [= <-]. unfold count_some. simpl. lia.
  - destruct (step c a) as [a1|] eqn:E; [|done]. simpl. intros Hrun.
    apply step_balance in E. apply IH in Hrun.
    rewrite !count_some_cons. lia.
Qed.

Lemma filter_key_absent (l : list (N * N)) (p : N) :
  p ∉ l.*1 → filter (λ kv, kv.1 = p) l = [].
Proof.
  induction l as [|[k v] l IH]; [done|].
  rewrite fmap_cons, not_elem_of_cons. simpl. intros [Hk Hl].
  rewrite filter_cons_False by (simpl; congruence). auto.
Qed.

(** A map holds one record per key. *)
Lemma tracked_once (m : gmap N N) (p s : N) :
  m !! p = Some s →
  filter (λ kv, kv.1 = p) (map_to_list m) = [(p, s)].
Proof.
  intros Hp.
  assert (Hin : (p, s) ∈ map_to_list m) by by apply elem_of_map_to_list.
  pose proof (NoDup_fst_map_to_list m) as Hnd.
  revert Hin Hnd. generalize (map_to_list m) as l.
  induction l as [|[k v] l IH]; intros Hin Hnd.
  - by apply elem_of_nil in Hin.
  - rewrite fmap_cons in Hnd. apply NoDup_cons in Hnd as [Hk Hnd]. simpl in Hk.
    apply elem_of_cons in Hin as [[= <- <-]|Hin].
    + rewrite filter_cons_True by done. f_equal. by apply filter_key_absent.
    + rewrite filter_cons_False; [by apply IH|].
      simpl. intros ->. apply Hk.
      change p with ((p, s).1). by apply list_elem_of_fmap_2.
Qed.

Lemma lookup_after_step c a a' p s :
  step c a = Done a' → allocations_ a !! p = Some s → releases c ≠ Some p →
  allocations_ a' !! p = Some s.
Proof.
  intros (-> & Hrel & Hacq)%step_done_inv Hp Hne.
  assert (Hd : drop_released c (allocations_ a) !! p = Some s).
  { unfold drop_released. destruct (releases c) as [q|]; [|done].
    rewrite lookup_delete_ne; [done|congruence]. }
  unfold add_acquired. destruct (acquires c) as [p'|] eqn:E; [|done].
  rewrite lookup_insert_ne; [done|].
  intros ->. specialize (Hacq p eq_refl). congruence.
Qed.

Lemma Destroy_fatal_iff a : Destroy a = Fatal ↔ allocations_ a ≠ ∅.
Proof. unfold Destroy. case_decide; split; done. Qed.

Lemma record_gone (m : gmap N N) (p s : N) :
  m !! p ≠ Some s → (p, s) ∉ map_to_list m.
Proof. intros Hne Hin. by apply elem_of_map_to_list in Hin. Qed.

(** *** Free *)

(** C4, as amended.  [Free(data, size)] with a non-null pointer: a pointer
    without a record is fatal; a record whose size differs from a non-zero
    [size] argument is fatal, also when the recorded size is 0; a call that
    passes [size = 0] skips the comparison whatever the record says.  When
    the checks pass, the record is removed and the base allocator frees the
    memory. *)
Theorem Free_checks_passed_size (data : N) (size : N) a :
  data ≠ nullptr →
  (allocations_ a !! data = None → Free data size a = Fatal)
  ∧ (∀ recorded, allocations_ a !! data = Some recorded →
       (0 < size → recorded ≠ size → Free data size a = Fatal)
       ∧ (size = 0 ∨ recorded = size →
          ∃ a', Free data size a = Done a'
                ∧ allocations_ a' = delete data (allocations_ a)
                ∧ allocations_ a' !! data = None
                ∧ heap_log a' = heap_log a ++ [BaseFree data size])).
Proof.
  intros Hn. split.
  - intros Hu. unfold Free. by rewrite Unregister_untracked.
  - intros recorded Hr. split.
    + intros Hpos Hne. unfold Free.
      by rewrite (Unregister_mismatch _ _ recorded).
    + intros Hok. unfold Free. rewrite (Unregister_ok _ _ recorded) by done.
      simpl. eexists. split; [done|]. simpl.
      split; [done|]. split; [apply lookup_delete_eq|done].
Qed.

Lemma Free_checks_passed_size_witness :
  ∃ a', Free 16 64 (with_allocations (fresh plain) {[16 := 64]}) = Done a'
        ∧ allocations_ a' = delete 16 ({[16 := 64]} : gmap N N)
        ∧ allocations_ a' !! 16 = None
        ∧ heap_log a' = [BaseFree 16 64].
Proof.
  destruct (Free_checks_passed_size 16 64
              (with_allocations (fresh plain) {[16 := 64]})) as [_ H].
  - done.
  - destruct (H 64) as [_ H64]; [done|]. apply H64. by right.
Defined.

(** C4, as stated, fails: a record of size 0 is not exempt from the
    comparison.  The record made by allocating 0 bytes at address 16 is
    there, and freeing it with size 5 is fatal. *)
Lemma Free_size0_record_not_exempt :
  Allocate 16 0 (fresh plain)
  = Done (16, log_call (tracking {[16 := 0]}) (UncheckedCalloc 0 16))
  ∧ allocations_ (tracking {[16 := 0]}) !! 16 = Some 0
  ∧ Free 16 5 (tracking {[16 := 0]}) = Fatal
  ∧ Free 16 5 (log_call (tracking {[16 := 0]}) (UncheckedCalloc 0 16)) = Fatal.
Proof. repeat split. Qed.

(** *** Reallocate *)

Lemma Reallocate_null_zero data old_size a :
  Reallocate nullptr data old_size 0 a
  = (a' ←! UnregisterPointerInternal data old_size
             (log_call a (BaseReallocate data old_size 0 nullptr));
     Done (nullptr, a')).
Proof. reflexivity. Qed.

Lemma Reallocate_moves ret data old_size size a :
  ret ≠ nullptr → data ≠ nullptr →
  is_Some (allocations_ a !! data) →
  delete data (allocations_ a) !! ret = None →
  ∃ a', Reallocate ret data old_size size a = Done (ret, a')
        ∧ allocations_ a' = <[ret := size]> (delete data (allocations_ a)).
Proof.
  intros Hret Hdata [r Hr] Hfree. unfold Reallocate.
  destruct (N.eqb_spec ret nullptr); [done|].
  destruct (N.eqb_spec data nullptr); [done|].
  rewrite allocations_log_call, Hr. simpl.
  rewrite Register_untracked by done. simpl. by eexists.
Qed.

(** C5.  [Reallocate] when the base reallocation answers [ret]:
    - [ret] null and [size = 0]: the tracking map ends as [Free(data,
      old_size)] leaves it, fatal where that is fatal, the record of a
      non-null [data] is gone, and null is returned;
    - [ret] null and [size > 0]: the map is unchanged and null is returned;
    - [ret] non-null: the record of [data] is removed when [data] is non-null
      (no record there is fatal), then [ret] is recorded with [size]
      (a record there already is fatal), and [ret] is returned.
    Scenario: 64 bytes allocated at [p], reallocated to 128 bytes at [ret]:
    the record (p, 64) is gone and [ret] has exactly one record, of size
    128. *)
Theorem Reallocate_records (ret data old_size size : N) a :
  (ret = nullptr → size = 0 →
     (Free data old_size a = Fatal → Reallocate ret data old_size size a = Fatal)
     ∧ (∀ a1, Free data old_size a = Done a1 →
          ∃ a', Reallocate ret data old_size size a = Done (nullptr, a')
                ∧ allocations_ a' = allocations_ a1
                ∧ (data ≠ nullptr → allocations_ a' !! data = None)))
  ∧ (ret = nullptr → size ≠ 0 →
       ∃ a', Reallocate ret data old_size size a = Done (nullptr, a')
             ∧ allocations_ a' = allocations_ a)
  ∧ (ret ≠ nullptr → data = nullptr →
       (is_Some (allocations_ a !! ret) →
          Reallocate ret data old_size size a = Fatal)
       ∧ (allocations_ a !! ret = None →
          ∃ a', Reallocate ret data old_size size a = Done (ret, a')
                ∧ allocations_ a' = <[ret := size]> (allocations_ a)))
  ∧ (ret ≠ nullptr → data ≠ nullptr →
       (allocations_ a !! data = None →
          Reallocate ret data old_size size a = Fatal)
       ∧ (is_Some (allocations_ a !! data) →
          is_Some (delete data (allocations_ a) !! ret) →
          Reallocate ret data old_size size a = Fatal)
       ∧ (is_Some (allocations_ a !! data) →
          delete data (allocations_ a) !! ret = None →
          ∃ a', Reallocate ret data old_size size a = Done (ret, a')
                ∧ allocations_ a'
                  = <[ret := size]> (delete data (allocations_ a))))
  ∧ (ret ≠ nullptr → data ≠ nullptr → allocations_ a !! data = None →
     (ret = data ∨ allocations_ a !! ret = None) →
       ∃ a1 a2, Allocate data 64 a = Done (data, a1)
                ∧ Reallocate ret data 64 128 a1 = Done (ret, a2)
                ∧ ((data, 64) ∉ map_to_list (allocations_ a2))
                ∧ filter (λ kv, kv.1 = ret) (map_to_list (allocations_ a2))
                  = [(ret, 128)]
                ∧ allocations_ a2 = <[ret := 128]> (allocations_ a)).
Proof.
  split; [|split; [|split; [|split]]].
  - intros -> ->. rewrite Reallocate_null_zero. split.
    + intros HF. unfold Free in HF. unfold UnregisterPointerInternal in *.
      rewrite allocations_log_call.
      destruct (data =? nullptr); [done|].
      destruct (allocations_ a !! data) as [r|]; [|done].
      by destruct ((0 <? old_size) && negb (r =? old_size)).
    + intros a1 HF. unfold Free in HF.
      destruct (UnregisterPointerInternal data old_size a) as [a0|] eqn:E;
        [|done].
      simpl in HF. injection HF as <-.
      apply Unregister_done_inv in E as [[-> ->]|(Hn & (r & Hr & Hok) & ->)].
      * rewrite Unregister_null. simpl. eexists. by split.
      * rewrite (Unregister_ok _ _ r) by done. simpl. eexists.
        split; [done|]. split; [done|]. intros _. simpl.
        apply lookup_delete_eq.
  - intros -> Hsz. unfold Reallocate. simpl.
    destruct (N.eqb_spec size 0); [done|]. by eexists.
  - intros Hret ->. split.
    + intros Htr. unfold Reallocate.
      destruct (N.eqb_spec ret nullptr); [done|]. simpl.
      by rewrite Register_tracked.
    + intros Hu. unfold Reallocate.
      destruct (N.eqb_spec ret nullptr); [done|]. simpl.
      rewrite Register_untracked by done. simpl. by eexists.
  - intros Hret Hdata. split; [|split].
    + intros Hu. unfold Reallocate.
      destruct (N.eqb_spec ret nullptr); [done|].
      destruct (N.eqb_spec data nullptr); [done|].
      by rewrite allocations_log_call, Hu.
    + intros [r Hr] Htr. unfold Reallocate.
      destruct (N.eqb_spec ret nullptr); [done|].
      destruct (N.eqb_spec data nullptr); [done|].
      rewrite allocations_log_call, Hr. simpl.
      by rewrite Register_tracked.
    + intros Htr Hfree. by apply Reallocate_moves.
  - intros Hret Hdata Hu Hfresh.
    unfold Allocate. rewrite Register_untracked by done. simpl.
    set (a1 := with_allocations _ _).
    destruct (Reallocate_moves ret data 64 128 a1) as (a2 & HR & Hm);
      try done.
    { subst a1. simpl. rewrite lookup_insert_eq. by eexists. }
    { subst a1. simpl. rewrite delete_insert_eq.
      destruct Hfresh as [->|Hf].
      - by rewrite lookup_delete_eq.
      - destruct (decide (data = ret)) as [->|Hne].
        + by rewrite lookup_delete_eq.
        + by rewrite lookup_delete_ne. }
    assert (Hfinal : allocations_ a2 = <[ret := 128]> (allocations_ a)).
    { rewrite Hm. subst a1. simpl. rewrite delete_insert_eq.
      by rewrite delete_id. }
    exists a1, a2. split; [done|]. split; [done|].
    split; [|split; [|done]].
    + apply record_gone. rewrite Hfinal.
      destruct (decide (ret = data)) as [->|Hne].
      * rewrite lookup_insert_eq. intros [=].
      * rewrite lookup_insert_ne by done. by rewrite Hu.
    + apply tracked_once. rewrite Hfinal. apply lookup_insert_eq.
Qed.

Lemma Reallocate_records_witness :
  (∃ a1 a2, Allocate 16 64 (fresh plain) = Done (16, a1)
            ∧ Reallocate 32 16 64 128 a1 = Done (32, a2)
            ∧ ((16, 64) ∉ map_to_list (allocations_ a2))
            ∧ filter (λ kv, kv.1 = 32) (map_to_list (allocations_ a2))
              = [(32, 128)]
            ∧ allocations_ a2 = <[32 := 128]> (allocations_ (fresh plain)))
  ∧ (∃ a', Reallocate 0 16 64 0 (tracking {[16 := 64]}) = Done (nullptr, a')
           ∧ allocations_ a' = delete 16 ({[16 := 64]} : gmap N N)
           ∧ (16 ≠ nullptr → allocations_ a' !! 16 = None))
  ∧ (∃ a', Reallocate 0 16 64 128 (tracking {[16 := 64]}) = Done (nullptr, a')
           ∧ allocations_ a' = {[16 := 64]})
  ∧ (∃ a', Reallocate 32 0 0 128 (tracking {[16 := 64]}) = Done (32, a')
           ∧ allocations_ a' = <[32 := 128]> {[16 := 64]})
  ∧ Reallocate 32 16 64 128 (fresh plain) = Fatal.
Proof.
  split; [|split; [|split; [|split]]].
  - destruct (Reallocate_records 32 16 64 128 (fresh plain))
      as (_ & _ & _ & _ & H).
    apply H; [done|done|done|by right].
  - destruct (Reallocate_records 0 16 64 0 (tracking {[16 := 64]}))
      as (H & _).
    destruct H as [_ H]; [done|done|].
    exact (H (log_call (tracking (delete 16 {[16 := 64]})) (BaseFree 16 64))
             eq_refl).
  - destruct (Reallocate_records 0 16 64 128 (tracking {[16 := 64]}))
      as (_ & H & _).
    apply H; done.
  - destruct (Reallocate_records 32 0 0 128 (tracking {[16 := 64]}))
      as (_ & _ & H & _).
    destruct H as [_ H]; [done|done|]. apply H. done.
  - destruct (Reallocate_records 32 16 64 128 (fresh plain))
      as (_ & _ & _ & H & _).
    destruct H as [H _]; [done|done|]. apply H. done.
Defined.

(** *** The tracking map *)

(** C6.  Every call of the allocator that returns keeps the records in step
    with the pointers handed out:
    - a non-null pointer handed out by [Allocate], [AllocateUninitialized] or
      [Reallocate] has exactly one record afterwards, with the requested
      size, and had none before (unless the call reallocated that very
      pointer);
    - a call that hands out nothing and gives back nothing, such as an
      allocation that returns null, leaves the map as it was;
    - recording a pointer that already has a record is fatal;
    - a record stays, with its size, across every call that does not give
      its pointer back;
    - the destructor is fatal exactly when the map is not empty;
    - after a sequence of calls on a fresh allocator in which as many
      pointers were given back as handed out, the map is empty and the
      destructor passes;
    - allocating and then freeing a pointer restores the map. *)
Theorem allocations_tracks_live_pointers :
  (∀ c a a' p, step c a = Done a' → acquires c = Some p →
     filter (λ kv, kv.1 = p) (map_to_list (allocations_ a'))
     = [(p, requested c)]
     ∧ (allocations_ a !! p = None ∨ releases c = Some p))
  ∧ (∀ c a a', step c a = Done a' → acquires c = None → releases c = None →
       allocations_ a' = allocations_ a)
  ∧ (∀ (ret size : N) a, ret ≠ nullptr → is_Some (allocations_ a !! ret) →
       Allocate ret size a = Fatal
       ∧ AllocateUninitialized ret size a = Fatal
       ∧ RegisterPointer ret size a = Fatal)
  ∧ (∀ c a a' (p s : N), step c a = Done a' →
       allocations_ a !! p = Some s → releases c ≠ Some p →
       allocations_ a' !! p = Some s)
  ∧ (∀ a, Destroy a = Fatal ↔ allocations_ a ≠ ∅)
  ∧ (∀ b cs a', run cs (fresh b) = Done a' →
       count_some acquires cs = count_some releases cs →
       allocations_ a' = ∅ ∧ Destroy a' = Done tt)
  ∧ (∀ (p size : N) a, p ≠ nullptr → allocations_ a !! p = None →
       ∃ a1 a2, Allocate p size a = Done (p, a1)
                ∧ allocations_ a1 !! p = Some size
                ∧ Free p size a1 = Done a2
                ∧ allocations_ a2 = allocations_ a).
Proof.
  split; [|split; [|split; [|split; [|split; [|split]]]]].
  - intros c a a' p Hstep Hacq.
    destruct (step_done_inv _ _ _ Hstep) as (Hm & Hrel & Hfree).
    split.
    + apply tracked_once. rewrite Hm. unfold add_acquired. rewrite Hacq.
      apply lookup_insert_eq.
    + specialize (Hfree p Hacq). unfold drop_released in Hfree.
      destruct (releases c) as [q|]; [|by left].
      destruct (decide (q = p)) as [->|Hne]; [by right|].
      left. by rewrite lookup_delete_ne in Hfree.
  - intros c a a' Hstep Hacq Hrel.
    destruct (step_done_inv _ _ _ Hstep) as (Hm & _ & _).
    rewrite Hm. unfold add_acquired, drop_released. by rewrite Hacq, Hrel.
  - intros ret size a Hn Htr. unfold Allocate, AllocateUninitialized, RegisterPointer.
    rewrite !Register_tracked; done.
  - intros c a a' p s. apply lookup_after_step.
  - apply Destroy_fatal_iff.
  - intros b cs a' Hrun Hcount. apply run_balance in Hrun.
    simpl in Hrun. rewrite map_size_empty in Hrun.
    assert (He : allocations_ a' = ∅) by (apply map_size_empty_inv; lia).
    split; [done|]. unfold Destroy. by rewrite decide_True.
  - intros p size a Hn Hu. unfold Allocate.
    rewrite Register_untracked by done. simpl.
    eexists _, _. split; [done|]. simpl.
    split; [apply lookup_insert_eq|].
    unfold Free. rewrite (Unregister_ok _ _ size); simpl.
    + split; [done|]. simpl. rewrite delete_insert_eq. by apply delete_id.
    + done.
    + apply lookup_insert_eq.
    + by right.
Qed.

Lemma allocations_tracks_live_pointers_witness :
  match run sample_calls (fresh plain) with
  | Done a' => allocations_ a' = ∅ ∧ Destroy a' = Done tt
  | Fatal => False
  end
  ∧ (Allocate 16 8 (tracking {[16 := 64]}) = Fatal
     ∧ AllocateUninitialized 16 8 (tracking {[16 := 64]}) = Fatal
     ∧ RegisterPointer 16 8 (tracking {[16 := 64]}) = Fatal)
  ∧ (∃ a1 a2, Allocate 16 64 (fresh plain) = Done (16, a1)
              ∧ allocations_ a1 !! 16 = Some 64
              ∧ Free 16 64 a1 = Done a2
              ∧ allocations_ a2 = allocations_ (fresh plain))
  ∧ (filter (λ kv, kv.1 = 16) (map_to_list ({[16 := 64]} : gmap N N))
     = [(16, 64)]
     ∧ ((∅ : gmap N N) !! 16 = None ∨ releases (CallAllocate 16 64) = Some 16)).
Proof.
  destruct allocations_tracks_live_pointers
    as (Hout & _ & Hdup & _ & _ & Hbal & Hpair).
  split; [|split; [|split]].
  - destruct (run sample_calls (fresh plain)) as [a'|] eqn:E.
    + by apply (Hbal plain sample_calls).
    + vm_compute in E. discriminate E.
  - apply Hdup; [done|]. by eexists.
  - by apply Hpair.
  - exact (Hout (CallAllocate 16 64) (fresh plain)
             (log_call (tracking {[16 := 64]}) (UncheckedCalloc 64 16)) 16
             eq_refl eq_refl).
Defined.

(** *** Further properties of the debugging allocator *)

Lemma Register_keeps_heap data size a a' :
  RegisterPointerInternal data size a = Done a' →
  heap_log a' = heap_log a ∧ base a' = base a.
Proof. by intros [[_ ->]|(_ & _ & ->)]%Register_done_inv. Qed.

Lemma Unregister_keeps_heap data size a a' :
  UnregisterPointerInternal data size a = Done a' →
  heap_log a' = heap_log a ∧ base a' = base a.
Proof. by intros [[_ ->]|(_ & _ & ->)]%Unregister_done_inv. Qed.

Lemma step_forwards c a a' :
  step c a = Done a' →
  heap_log a' = heap_log a ++ [forwarded (base a) c] ∧ base a' = base a.
Proof.
  destruct c as [ret size|ret size|data size|ret data old_size size]; simpl.
  - unfold Allocate.
    destruct (RegisterPointerInternal _ _ _) as [a2|] eqn:E; [|done].
    simpl. intros [= <-]. by apply Register_keeps_heap in E.
  - unfold AllocateUninitialized.
    destruct (RegisterPointerInternal _ _ _) as [a2|] eqn:E; [|done].
    simpl. intros [= <-]. by apply Register_keeps_heap in E.
  - unfold Free.
    destruct (UnregisterPointerInternal _ _ _) as [a1|] eqn:E; [|done].
    simpl. intros [= <-]. apply Unregister_keeps_heap in E as [E1 E2].
    simpl. by rewrite E1, E2.
  - unfold Reallocate.
    destruct (ret =? nullptr).
    + destruct (size =? 0).
      * destruct (UnregisterPointerInternal _ _ _) as [a2|] eqn:E; [|done].
        simpl. intros [= <-]. by apply Unregister_keeps_heap in E.
      * simpl. by intros [= <-].
    + destruct (data =? nullptr); simpl.
      * destruct (RegisterPointerInternal _ _ _) as [a3|] eqn:E; [|done].
        simpl. intros [= <-]. by apply Register_keeps_heap in E.
      * destruct (allocations_ a !! data); [|done]. simpl.
        destruct (RegisterPointerInternal _ _ _) as [a3|] eqn:E; [|done].
        simpl. intros [= <-]. by apply Register_keeps_heap in E.
Qed.

(** X1.  The debugging allocator is transparent to the heap: a sequence
    of calls that returns has sent the heap exactly one call per call, in
    order and with the arguments it was given, and the base allocator is
    unchanged. *)
Theorem run_forwards_every_call cs : ∀ a a',
  run cs a = Done a' →
  heap_log a' = heap_log a ++ (forwarded (base a) <$> cs)
  ∧ base a' = base a.
Proof.
  induction cs as [|c cs IH]; intros a a'; simpl.
  - intros [= <-]. by rewrite app_nil_r.
  - destruct (step c a) as [a1|] eqn:E; [|done]. simpl. intros Hrun.
    apply step_forwards in E as [E1 E2]. apply IH in Hrun as [-> ->].
    rewrite E1, E2, <- app_assoc. done.
Qed.

Lemma run_forwards_every_call_witness :
  match run sample_calls (fresh plain) with
  | Done a' =>
      heap_log a'
      = [UncheckedCalloc 64 16; BaseReallocate 16 64 128 32; BaseFree 32 128]
      ∧ base a' = plain
  | Fatal => False
  end.
Proof.
  destruct (run sample_calls (fresh plain)) as [a'|] eqn:E.
  - exact (run_forwards_every_call sample_calls (fresh plain) a' E).
  - vm_compute in E. discriminate E.
Defined.

(** X2.  A pointer that was freed is not known any more: freeing it again
    is fatal whatever size is passed, and so is reallocating it, unless the
    base reallocation fails on a non-zero size (then nothing is looked
    up). *)
Theorem freed_pointer_is_rejected (data size : N) a a1 :
  data ≠ nullptr →
  Free data size a = Done a1 →
  allocations_ a1 !! data = None
  ∧ (∀ size', Free data size' a1 = Fatal)
  ∧ (∀ ret old_size size', ret ≠ nullptr ∨ size' = 0 →
       Reallocate ret data old_size size' a1 = Fatal)
  ∧ (∀ old_size size', size' ≠ 0 →
       ∃ a2, Reallocate nullptr data old_size size' a1 = Done (nullptr, a2)
             ∧ allocations_ a2 = allocations_ a1).
Proof.
  intros Hn HF. unfold Free in HF.
  destruct (UnregisterPointerInternal data size a) as [a0|] eqn:E; [|done].
  simpl in HF. injection HF as <-.
  apply Unregister_done_inv in E as [[-> _]|(_ & _ & ->)]; [done|].
  assert (Hgone : allocations_
                    (log_call (with_allocations a (delete data (allocations_ a)))
                       (BaseFree data size)) !! data = None)
    by apply lookup_delete_eq.
  split; [done|]. split; [|split].
  - intros size'. unfold Free. by rewrite Unregister_untracked.
  - intros ret old_size size' Hcase. unfold Reallocate.
    destruct (N.eqb_spec ret nullptr) as [->|Hret].
    + destruct Hcase as [?| ->]; [done|]. simpl.
      by rewrite Unregister_untracked.
    + destruct (N.eqb_spec data nullptr); [done|].
      by rewrite allocations_log_call, Hgone.
  - intros old_size size' Hs. unfold Reallocate. simpl.
    destruct (N.eqb_spec size' 0); [done|]. by eexists.
Qed.

Lemma freed_pointer_is_rejected_witness :
  Free 16 0 (log_call (tracking (delete 16 {[16 := 64]})) (BaseFree 16 64))
  = Fatal
  ∧ Reallocate 32 16 64 128
      (log_call (tracking (delete 16 {[16 := 64]})) (BaseFree 16 64))
    = Fatal.
Proof.
  destruct (freed_pointer_is_rejected 16 64 (tracking {[16 := 64]})
              (log_call (tracking (delete 16 {[16 := 64]})) (BaseFree 16 64)))
    as (_ & H1 & H2 & _); [done|reflexivity|].
  split; [apply H1|apply H2; by left].
Defined.

(** X3.  The null pointer never gets a record: if it has none, it has none
    after any sequence of calls that returns. *)
Theorem nullptr_never_tracked cs : ∀ a a',
  allocations_ a !! nullptr = None →
  run cs a = Done a' →
  allocations_ a' !! nullptr = None.
Proof.
  induction cs as [|c cs IH]; intros a a' Hnull; simpl.
  - by intros [= <-].
  - destruct (step c a) as [a1|] eqn:E; [|done]. simpl.
    apply IH. apply step_done_inv in E as (-> & _ & _).
    assert (Hd : drop_released c (allocations_ a) !! nullptr = None).
    { unfold drop_released. destruct (releases c) as [q|]; [|done].
      destruct (decide (q = nullptr)) as [->|Hq].
      - apply lookup_delete_eq.
      - by rewrite lookup_delete_ne. }
    unfold add_acquired. destruct (acquires c) as [p|] eqn:Hp; [|done].
    rewrite lookup_insert_ne; [done|]. intros ->.
    destruct c as [ret ?|ret ?|? ?|ret ? ? ?]; simpl in Hp; try done;
      (destruct (N.eqb_spec ret nullptr) as [|Hne]; [done|]);
      injection Hp as Hp; done.
Qed.

Lemma nullptr_never_tracked_witness :
  match run (CallAllocate 0 8 :: CallFree 0 8 :: sample_calls) (fresh plain) with
  | Done a' => allocations_ a' !! nullptr = None
  | Fatal => False
  end.
Proof.
  destruct (run (CallAllocate 0 8 :: CallFree 0 8 :: sample_calls)
              (fresh plain)) as [a'|] eqn:E.
  - exact (nullptr_never_tracked _ (fresh plain) a' eq_refl E).
  - vm_compute in E. discriminate E.
Defined.

(** X4.  Leak detection is exact: after a sequence of calls on a fresh
    allocator that returns, the number of records is the number of pointers
    handed out minus the number given back, and the destructor passes
    exactly when the two are equal. *)
Theorem Destroy_passes_iff_balanced b cs a' :
  run cs (fresh b) = Done a' →
  (size (allocations_ a') + count_some releases cs
   = count_some acquires cs)%nat
  ∧ (Destroy a' = Done tt ↔ count_some acquires cs = count_some releases cs).
Proof.
  intros Hrun. apply run_balance in Hrun. simpl in Hrun.
  rewrite map_size_empty in Hrun. split; [lia|].
  unfold Destroy. case_decide as He.
  - rewrite He, map_size_empty in Hrun. split; [lia|done].
  - apply map_size_non_empty_iff in He. split; [done|lia].
Qed.

Lemma Destroy_passes_iff_balanced_witness :
  match run (take 2 sample_calls) (fresh plain) with
  | Done a' => Destroy a' = Fatal ∧ size (allocations_ a') = 1%nat
  | Fatal => False
  end.
Proof.
  destruct (run (take 2 sample_calls) (fresh plain)) as [a'|] eqn:E.
  - destruct (Destroy_passes_iff_balanced plain _ a' E) as [Hs Hd].
    change (count_some releases (take 2 sample_calls)) with 1%nat in *.
    change (count_some acquires (take 2 sample_calls)) with 2%nat in *.
    split; [|lia].
    destruct (Destroy a') as [[]|] eqn:HD; [|done].
    destruct Hd as [Hd _]. specialize (Hd eq_refl). discriminate Hd.
  - vm_compute in E. discriminate E.
Defined.

Lemma with_allocations_id a : with_allocations a (allocations_ a) = a.
Proof. by destruct a. Qed.

(** X5.  [RegisterPointer] and [UnregisterPointer] undo each other and
    never reach the heap: registering an unknown non-null pointer and
    unregistering it with the same size, or with size 0, gives the allocator
    back as it was; so does unregistering a known pointer and registering it
    again with the size that was recorded. *)
Theorem RegisterPointer_UnregisterPointer_roundtrip (data size : N) a :
  data ≠ nullptr →
  (allocations_ a !! data = None →
     ∃ a1, RegisterPointer data size a = Done a1
           ∧ allocations_ a1 !! data = Some size
           ∧ heap_log a1 = heap_log a
           ∧ UnregisterPointer data size a1 = Done a
           ∧ UnregisterPointer data 0 a1 = Done a)
  ∧ (allocations_ a !! data = Some size →
       ∃ a1, UnregisterPointer data size a = Done a1
             ∧ allocations_ a1 !! data = None
             ∧ heap_log a1 = heap_log a
             ∧ RegisterPointer data size a1 = Done a).
Proof.
  intros Hn. unfold RegisterPointer, UnregisterPointer. split.
  - intros Hu. rewrite Register_untracked by done.
    eexists. split; [reflexivity|]. simpl.
    split; [apply lookup_insert_eq|]. split; [done|].
    assert (Hback : with_allocations
                      (with_allocations a (<[data:=size]> (allocations_ a)))
                      (delete data (<[data:=size]> (allocations_ a))) = a).
    { rewrite delete_insert_eq, delete_id by done.
      transitivity (with_allocations a (allocations_ a)); [done|].
      apply with_allocations_id. }
    split.
    + rewrite (Unregister_ok _ _ size);
        [ | done | apply lookup_insert_eq | by right].
      f_equal. exact Hback.
    + rewrite (Unregister_ok _ _ size);
        [ | done | apply lookup_insert_eq | by left].
      f_equal. exact Hback.
  - intros Hs. rewrite (Unregister_ok _ _ size) by (done || by right).
    eexists. split; [reflexivity|]. simpl.
    split; [apply lookup_delete_eq|]. split; [done|].
    rewrite Register_untracked; [|done|apply lookup_delete_eq]. simpl.
    f_equal. rewrite insert_delete_eq, insert_id by done.
    transitivity (with_allocations a (allocations_ a)); [done|].
    apply with_allocations_id.
Qed.

Lemma RegisterPointer_UnregisterPointer_roundtrip_witness :
  (∃ a1, RegisterPointer 48 7 (tracking {[16 := 64]}) = Done a1
         ∧ allocations_ a1 !! 48 = Some 7
         ∧ heap_log a1 = heap_log (tracking {[16 := 64]})
         ∧ UnregisterPointer 48 7 a1 = Done (tracking {[16 := 64]})
         ∧ UnregisterPointer 48 0 a1 = Done (tracking {[16 := 64]}))
  ∧ (∃ a1, UnregisterPointer 16 64 (tracking {[16 := 64]}) = Done a1
           ∧ allocations_ a1 !! 16 = None
           ∧ heap_log a1 = heap_log (tracking {[16 := 64]})
           ∧ RegisterPointer 16 64 a1 = Done (tracking {[16 := 64]})).
Proof.
  split.
  - destruct (RegisterPointer_UnregisterPointer_roundtrip 48 7
                (tracking {[16 := 64]})) as [H _]; [done|].
    by apply H.
  - destruct (RegisterPointer_UnregisterPointer_roundtrip 16 64
                (tracking {[16 := 64]})) as [_ H]; [done|].
    by apply H.
Defined.

(** X6.  Reallocating the null pointer is an allocation, as far as the
    records go: [Reallocate] with [data = nullptr] is fatal exactly when
    [AllocateUninitialized] with the same returned pointer and size is, and
    leaves the same records otherwise. *)
Theorem Reallocate_nullptr_is_allocation (ret old_size size : N) a :
  tracked_after snd (Reallocate ret nullptr old_size size a)
  = tracked_after snd (AllocateUninitialized ret size a)
  ∧ tracked_after snd (Reallocate ret nullptr old_size size a)
    = tracked_after snd (Allocate ret size a).
Proof.
  unfold Reallocate, AllocateUninitialized, Allocate.
  destruct (N.eqb_spec ret nullptr) as [->|Hret].
  - rewrite !Register_null, Unregister_null. simpl.
    by destruct (size =? 0).
  - simpl. unfold RegisterPointerInternal.
    destruct (N.eqb_spec ret nullptr); [done|]. simpl.
    by destruct (allocations_ a !! ret).
Qed.

(** X7.  A reallocation that succeeds does not look at [old_size]: with a
    non-null returned pointer, whether [Reallocate] is fatal and which
    records it leaves are the same for every [old_size].  In particular a
    block that grows in place keeps its record, with the new size, even
    when [old_size] is wrong. *)
Theorem Reallocate_ignores_old_size (ret data size : N) a :
  ret ≠ nullptr →
  (∀ old_size old_size',
     tracked_after snd (Reallocate ret data old_size size a)
     = tracked_after snd (Reallocate ret data old_size' size a))
  ∧ (ret = data → is_Some (allocations_ a !! data) →
     ∀ old_size,
       ∃ a', Reallocate ret data old_size size a = Done (data, a')
             ∧ allocations_ a' = <[data := size]> (allocations_ a)
             ∧ dom (allocations_ a') = dom (allocations_ a)).
Proof.
  intros Hret. split.
  - intros old_size old_size'. unfold Reallocate.
    destruct (N.eqb_spec ret nullptr); [done|].
    destruct (data =? nullptr); simpl.
    + unfold RegisterPointerInternal.
      destruct (N.eqb_spec ret nullptr); [done|]. simpl.
      by destruct (allocations_ a !! ret).
    + destruct (allocations_ a !! data); [|done]. simpl.
      unfold RegisterPointerInternal.
      destruct (N.eqb_spec ret nullptr); [done|]. simpl.
      by destruct (delete data (allocations_ a) !! ret).
  - intros <- Htr old_size.
    destruct (Reallocate_moves ret ret old_size size a) as (a' & HR & Hm);
      [done|done|done|apply lookup_delete_eq|].
    exists a'. split; [done|]. rewrite Hm, insert_delete_eq.
    split; [done|]. rewrite dom_insert_L.
    apply elem_of_dom in Htr.
    apply (anti_symm (⊆)); [|apply union_subseteq_r].
    apply union_least; [by apply singleton_subseteq_l|done].
Qed.

Lemma Reallocate_ignores_old_size_witness :
  tracked_after snd (Reallocate 32 16 64 128 (tracking {[16 := 64]}))
  = tracked_after snd (Reallocate 32 16 1 128 (tracking {[16 := 64]}))
  ∧ (∃ a', Reallocate 16 16 1 128 (tracking {[16 := 64]}) = Done (16, a')
           ∧ allocations_ a' = <[16 := 128]> {[16 := 64]}
           ∧ dom (allocations_ a') = dom ({[16 := 64]} : gmap N N)).
Proof.
  destruct (Reallocate_ignores_old_size 32 16 128 (tracking {[16 := 64]}))
    as [H1 _]; [done|].
  destruct (Reallocate_ignores_old_size 16 16 128 (tracking {[16 := 64]}))
    as [_ H2]; [done|].
  split; [apply H1|]. apply H2; [done|]. by eexists.
Defined.

End AllocatorFacts.

Module EnvFacts.
Import Engine Env.

Section Teardown.

Variable Embedder : Type.
Variable cleanup_hook : nat → Environment → Embedder → Embedder.
Variable at_exit_function : nat → Environment → Embedder → Embedder.

Local Abbreviation Process := (Process Embedder).
Local Abbreviation FreeEnvironment :=
  (FreeEnvironment Embedder cleanup_hook at_exit_function).
Local Abbreviation RunCleanup := (RunCleanup Embedder cleanup_hook).
Local Abbreviation run_cleanup_hooks := (run_cleanup_hooks Embedder cleanup_hook).
Local Abbreviation RunAtExit := (RunAtExit Embedder at_exit_function).
Local Abbreviation stop_sub_worker_contexts := (stop_sub_worker_contexts Embedder).

Local Abbreviation replay := (replay Embedder cleanup_hook at_exit_function).

Lemma stop_sub_worker_contexts_spec env (w : Process) :
  stop_sub_worker_contexts env w
  = (with_sub_worker_contexts env [],
     {| entered_contexts := entered_contexts w;
        embedder := embedder w;
        trace := trace w
                 ++ (SubWorkerContextStopped <$> sub_worker_contexts env) |}).
Proof.
  unfold Env.stop_sub_worker_contexts. f_equal.
  generalize (sub_worker_contexts env) as ws. intros ws. revert w.
  induction ws as [|x ws IH]; intros w; simpl.
  - rewrite app_nil_r. by destruct w.
  - rewrite IH. simpl. by rewrite <- app_assoc.
Qed.

Lemma run_cleanup_hooks_spec hooks : ∀ env (w : Process),
  let events :=
    imap (λ i hook,
            CleanupHookRun hook (with_cleanup_hooks env (drop i hooks))
              (entered_contexts w))
         hooks in
  run_cleanup_hooks hooks env w
  = (with_cleanup_hooks env [],
     {| entered_contexts := entered_contexts w;
        embedder := foldl replay (embedder w) events;
        trace := trace w ++ events |}).
Proof.
  induction hooks as [|hook rest IH]; intros env w; simpl.
  - rewrite app_nil_r. by destruct w.
  - rewrite IH. simpl. by rewrite <- app_assoc.
Qed.

Lemma RunAtExit_spec env (w : Process) :
  let events :=
    (λ fn, AtExitFunctionRun fn env (entered_contexts w))
      <$> at_exit_functions env in
  RunAtExit env w
  = {| entered_contexts := entered_contexts w;
       embedder := foldl replay (embedder w) events;
       trace := trace w ++ events |}.
Proof.
  unfold Env.RunAtExit.
  generalize (at_exit_functions env) as fs. intros fs. revert w.
  induction fs as [|fn fs IH]; intros w; cbn [foldl].
  - simpl. rewrite app_nil_r. by destruct w.
  - rewrite IH. simpl. by rewrite <- app_assoc.
Qed.

Lemma replay_sub_workers s ws :
  foldl replay s (SubWorkerContextStopped <$> ws) = s.
Proof. induction ws as [|x ws IH]; simpl; auto. Qed.

(** What [FreeEnvironment] adds to the trace, what it does to the
    embedder's state, and that it leaves the stack of entered contexts as it
    found it. *)
Lemma FreeEnvironment_trace env (w : Process) :
  trace (FreeEnvironment env w)
  = trace w ++ teardown_events env (entered_contexts w)
  ∧ embedder (FreeEnvironment env w)
    = foldl replay (embedder w) (teardown_events env (entered_contexts w))
  ∧ entered_contexts (FreeEnvironment env w) = entered_contexts w.
Proof.
  unfold Env.FreeEnvironment.
  rewrite stop_sub_worker_contexts_spec.
  unfold Env.RunCleanup. rewrite run_cleanup_hooks_spec.
  cbv zeta. rewrite RunAtExit_spec.
  unfold teardown_events, cleanup_events, at_exit_events, drain_events,
    torn_down.
  simpl. rewrite !foldl_app. simpl. rewrite replay_sub_workers.
  destruct (platform (isolate_data env)); simpl;
    (split; [|split; [|done]]); rewrite <- ?app_assoc; simpl;
    rewrite <- ?app_assoc; reflexivity.
Qed.

(** *** Teardown *)

(** C1.  [FreeEnvironment] adds to the trace, in this order: the handle
    scope and the context scope are entered; the thread-stop flag is set;
    the sub-worker contexts are stopped; the cleanup hooks run; the at-exit
    functions run; the context scope and the handle scope are left; the
    platform, when there is one, drains the tasks of the isolate; the
    environment is deleted.  The embedder's state is what the callbacks make
    of it, in that order.  The i-th cleanup hook runs inside the context
    scope on an environment whose stop flag is set, which has no sub-worker
    left, and whose remaining hooks are those from the i-th on; every
    at-exit function runs inside the context scope on an environment with no
    cleanup hook left.  The stack of entered contexts ends as it began. *)
Theorem FreeEnvironment_teardown_order env (w : Process) :
  let inside := context env :: entered_contexts w in
  trace (FreeEnvironment env w)
  = trace w
    ++ [HandleScopeOpen (isolate (isolate_data env));
        ContextEnter (context env);
        ThreadStopperSetStopped (thread_id env)]
    ++ (SubWorkerContextStopped <$> sub_worker_contexts env)
    ++ cleanup_events env inside
    ++ at_exit_events env inside
    ++ [ContextExit (context env);
        HandleScopeClose (isolate (isolate_data env))]
    ++ match platform (isolate_data env) with
       | Some p => [DrainTasks p (isolate (isolate_data env))]
       | None => []
       end
    ++ [EnvironmentDeleted (torn_down env)]
  ∧ embedder (FreeEnvironment env w)
    = foldl replay (embedder w)
        (cleanup_events env inside ++ at_exit_events env inside)
  ∧ entered_contexts (FreeEnvironment env w) = entered_contexts w
  ∧ length (cleanup_events env inside) = length (cleanup_hooks env)
  ∧ (∀ i e, cleanup_events env inside !! i = Some e →
       ∃ hook seen,
         e = CleanupHookRun hook seen inside
         ∧ cleanup_hooks env !! i = Some hook
         ∧ thread_stopper_stopped seen = true
         ∧ is_stopping seen = true
         ∧ sub_worker_contexts seen = []
         ∧ cleanup_hooks seen = drop i (cleanup_hooks env))
  ∧ (∀ e, e ∈ at_exit_events env inside →
       ∃ fn seen,
         e = AtExitFunctionRun fn seen inside
         ∧ fn ∈ at_exit_functions env
         ∧ cleanup_hooks seen = []
         ∧ thread_stopper_stopped seen = true
         ∧ sub_worker_contexts seen = []).
Proof.
  intros inside.
  destruct (FreeEnvironment_trace env w) as (Ht & He & Hc).
  split; [exact Ht|]. split; [|split; [exact Hc|split; [|split]]].
  - rewrite He. unfold teardown_events. fold inside.
    rewrite !foldl_app. simpl. rewrite replay_sub_workers.
    unfold drain_events.
    destruct (platform (isolate_data env)); reflexivity.
  - unfold cleanup_events. apply length_imap.
  - intros i e. unfold cleanup_events. rewrite list_lookup_imap.
    destruct (cleanup_hooks env !! i) as [hook|] eqn:Hi; [|done].
    simpl. intros [= <-]. eexists _, _. split; [reflexivity|]. done.
  - intros e. unfold at_exit_events. rewrite list_elem_of_fmap.
    intros (fn & -> & Hfn). eexists _, _. split; [reflexivity|]. done.
Qed.

End Teardown.

Lemma FreeEnvironment_teardown_order_witness :
  trace (Env.FreeEnvironment (list sight) log_sight log_sight sample_env idle)
  = [HandleScopeOpen 1; ContextEnter 5; ThreadStopperSetStopped 3;
     SubWorkerContextStopped 40;
     CleanupHookRun 11
       (with_cleanup_hooks
          (with_sub_worker_contexts (set_stopped sample_env true) [])
          [11; 12]%nat) [5%nat];
     CleanupHookRun 12
       (with_cleanup_hooks
          (with_sub_worker_contexts (set_stopped sample_env true) [])
          [12%nat]) [5%nat];
     AtExitFunctionRun 21 (torn_down sample_env) [5%nat];
     ContextExit 5; HandleScopeClose 1;
     DrainTasks 9 1;
     EnvironmentDeleted (torn_down sample_env)]
  ∧ embedder
      (Env.FreeEnvironment (list sight) log_sight log_sight sample_env idle)
    = [(11%nat, true, [], [11; 12]%nat);
       (12%nat, true, [], [12%nat]);
       (21%nat, true, [], [])]
  ∧ (∃ hook seen,
       CleanupHookRun 12
         (with_cleanup_hooks
            (with_sub_worker_contexts (set_stopped sample_env true) [])
            [12%nat]) [5%nat]
       = CleanupHookRun hook seen [5%nat]
       ∧ cleanup_hooks sample_env !! 1%nat = Some hook
       ∧ thread_stopper_stopped seen = true
       ∧ is_stopping seen = true
       ∧ sub_worker_contexts seen = []
       ∧ cleanup_hooks seen = drop 1 (cleanup_hooks sample_env))
  ∧ (∃ fn seen,
       AtExitFunctionRun 21 (torn_down sample_env) [5%nat]
       = AtExitFunctionRun fn seen [5%nat]
       ∧ fn ∈ at_exit_functions sample_env
       ∧ cleanup_hooks seen = []
       ∧ thread_stopper_stopped seen = true
       ∧ sub_worker_contexts seen = []).
Proof.
  destruct (FreeEnvironment_teardown_order (list sight) log_sight log_sight
              sample_env idle) as (Ht & He & _ & _ & Hc & Ha).
  split; [|split; [|split]].
  - rewrite Ht. reflexivity.
  - rewrite He. reflexivity.
  - apply (Hc 1%nat). reflexivity.
  - apply Ha. simpl. apply list_elem_of_singleton. reflexivity.
Defined.

(** *** Creation *)

Section Creation.

Variable Embedder : Type.
Variable cleanup_hook : nat → Environment → Embedder → Embedder.
Variable at_exit_function : nat → Environment → Embedder → Embedder.
Variable new_Environment :
  IsolateData → nat → list string → list string → N → N → Environment.
Variable RunBootstrapping :
  Environment → Process Embedder → Maybe Value * Environment * Process Embedder.
Variable ExecuteBootstrapper :
  Environment → string → list string → Process Embedder →
  Maybe Value * Environment * Process Embedder.
Variable kOwnsProcessState : N.
Variable kPrepareForExecution : N.

Local Abbreviation Process := (Process Embedder).
Local Abbreviation FreeEnvironment :=
  (FreeEnvironment Embedder cleanup_hook at_exit_function).
Local Abbreviation constructed := (constructed new_Environment kOwnsProcessState).
Local Abbreviation CreateEnvironment :=
  (CreateEnvironment Embedder cleanup_hook at_exit_function new_Environment
     RunBootstrapping ExecuteBootstrapper kOwnsProcessState
     kPrepareForExecution).
Local Abbreviation enter_scopes := (enter_scopes Embedder).
Local Abbreviation leave_scopes := (leave_scopes Embedder).
Local Abbreviation ends_in_teardown :=
  (ends_in_teardown Embedder cleanup_hook at_exit_function).

Lemma FreeEnvironment_ends_in_teardown env (w : Process) :
  ends_in_teardown env w (FreeEnvironment env w).
Proof.
  destruct (FreeEnvironment_trace Embedder cleanup_hook at_exit_function env w)
    as (Ht & _ & _).
  split; [done|]. split; [done|].
  rewrite Ht. unfold teardown_events. rewrite !app_assoc. apply last_snoc.
Qed.

(** C2.  [CreateEnvironment] on a failing bootstrap: when
    [RunBootstrapping] answers empty, or when the prepare-for-execution flag
    is set and the unit [internal/bootstrap/environment] answers empty, the
    environment goes through [FreeEnvironment], whose last act is to delete
    it, and the caller gets [nullptr].  An environment is returned only when
    [RunBootstrapping] succeeded and, with the flag set, the unit did too;
    it is then the environment those left, not torn down. *)
Theorem CreateEnvironment_failure_tears_down
    (isolate_data : IsolateData) (context : nat) (args exec_args : list string)
    (flags thread_id : N) (w : Process) :
  let env := constructed isolate_data context args exec_args flags thread_id in
  let w0 := enter_scopes (isolate isolate_data) context w in
  let unit_ := "internal/bootstrap/environment" in
  let parameters := ["require"; "markBootstrapComplete"] in
  let out := leave_scopes (isolate isolate_data) context in
  (∀ env1 w1,
     RunBootstrapping env w0 = (Nothing, env1, w1) →
     ∃ w2, CreateEnvironment isolate_data context args exec_args flags
             thread_id w = (None, out w2)
           ∧ ends_in_teardown env1 w1 w2)
  ∧ (∀ v env1 w1 env2 w2,
       RunBootstrapping env w0 = (Just v, env1, w1) →
       has_flag flags kPrepareForExecution = true →
       ExecuteBootstrapper env1 unit_ parameters w1 = (Nothing, env2, w2) →
       ∃ w3, CreateEnvironment isolate_data context args exec_args flags
               thread_id w = (None, out w3)
             ∧ ends_in_teardown env2 w2 w3)
  ∧ (∀ env' w',
       CreateEnvironment isolate_data context args exec_args flags
         thread_id w = (Some env', w') →
       ∃ v env1 w1,
         RunBootstrapping env w0 = (Just v, env1, w1)
         ∧ if has_flag flags kPrepareForExecution
           then ∃ v' w2, ExecuteBootstrapper env1 unit_ parameters w1
                         = (Just v', env', w2)
                         ∧ w' = out w2
           else env' = env1 ∧ w' = out w1).
Proof.
  intros env w0 unit_ parameters out.
  unfold Env.CreateEnvironment. fold env w0 unit_ parameters.
  split; [|split].
  - intros env1 w1 ->. simpl.
    eexists. split; [reflexivity|]. apply FreeEnvironment_ends_in_teardown.
  - intros v env1 w1 env2 w2 -> Hflag. simpl. rewrite Hflag. simpl.
    intros ->. simpl.
    eexists. split; [reflexivity|]. apply FreeEnvironment_ends_in_teardown.
  - intros env' w'.
    destruct (RunBootstrapping env w0) as [[booted env1] w1].
    destruct booted as [v|]; simpl; [|done].
    destruct (has_flag flags kPrepareForExecution); simpl.
    + destruct (ExecuteBootstrapper env1 unit_ parameters w1)
        as [[prepared env2] w2] eqn:E.
      destruct prepared as [v'|]; simpl; [|done].
      intros H. injection H as <- <-. exists v, env1, w1. split; [done|].
      by exists v', w2.
    + intros H. injection H as <- <-. by exists v, env1, w1.
Qed.

End Creation.

Lemma CreateEnvironment_failure_tears_down_witness :
  (∃ w2, Env.CreateEnvironment (list sight) log_sight log_sight sample_new
           (sample_RunBootstrapping false) (sample_ExecuteBootstrapper true)
           2 4 sample_isolate_data 5 ["node"] [] 4 7 idle
         = (None, leave_scopes (list sight) 1 5 w2)
         ∧ trace w2
           = [HandleScopeOpen 1; ContextEnter 5;
              HandleScopeOpen 1; ContextEnter 5; ThreadStopperSetStopped 7;
              CleanupHookRun 11
                (set_stopped (sample_new sample_isolate_data 5 ["node"] [] 4 7)
                   true) [5; 5]%nat;
              ContextExit 5; HandleScopeClose 1;
              EnvironmentDeleted
                (torn_down (sample_new sample_isolate_data 5 ["node"] [] 4 7))])
  ∧ (∃ w3, Env.CreateEnvironment (list sight) log_sight log_sight sample_new
             (sample_RunBootstrapping true) (sample_ExecuteBootstrapper false)
             2 4 sample_isolate_data 5 ["node"] [] 4 7 idle
           = (None, leave_scopes (list sight) 1 5 w3)
           ∧ last (trace w3)
             = Some (EnvironmentDeleted
                       (torn_down
                          (sample_new sample_isolate_data 5 ["node"] [] 4 7))))
  ∧ (∃ v env1 w1,
       sample_RunBootstrapping true
         (sample_new sample_isolate_data 5 ["node"] [] 4 7)
         (enter_scopes (list sight) 1 5 idle) = (Just v, env1, w1)
       ∧ ∃ v' w2, sample_ExecuteBootstrapper true env1
                    "internal/bootstrap/environment"
                    ["require"; "markBootstrapComplete"] w1
                  = (Just v', sample_new sample_isolate_data 5 ["node"] [] 4 7,
                     w2)
                  ∧ leave_scopes (list sight) 1 5
                      (enter_scopes (list sight) 1 5 idle)
                    = leave_scopes (list sight) 1 5 w2).
Proof.
  split; [|split].
  - destruct (CreateEnvironment_failure_tears_down (list sight) log_sight
                log_sight sample_new (sample_RunBootstrapping false)
                (sample_ExecuteBootstrapper true) 2 4
                sample_isolate_data 5 ["node"] [] 4 7 idle) as (H & _ & _).
    destruct (H _ _ eq_refl) as (w2 & Hc & (-> & Ht & _)).
    eexists. split; [exact Hc|]. rewrite Ht. reflexivity.
  - destruct (CreateEnvironment_failure_tears_down (list sight) log_sight
                log_sight sample_new (sample_RunBootstrapping true)
                (sample_ExecuteBootstrapper false) 2 4
                sample_isolate_data 5 ["node"] [] 4 7 idle) as (_ & H & _).
    destruct (H _ _ _ _ _ eq_refl eq_refl eq_refl) as (w3 & Hc & (_ & _ & Hl)).
    eexists. split; [exact Hc|]. exact Hl.
  - destruct (CreateEnvironment_failure_tears_down (list sight) log_sight
                log_sight sample_new (sample_RunBootstrapping true)
                (sample_ExecuteBootstrapper true) 2 4
                sample_isolate_data 5 ["node"] [] 4 7 idle) as (_ & _ & H).
    exact (H _ _ eq_refl).
Defined.

(** *** The abort-on-uncaught-exception predicate *)

Example abort_worker_running :
  ShouldAbortOnUncaughtException (Some sample_env) = true.
Proof. reflexivity. Qed.

Example abort_worker_stopping :
  ShouldAbortOnUncaughtException (Some (set_stopped sample_env true)) = false.
Proof. reflexivity. Qed.

Example abort_no_environment : ShouldAbortOnUncaughtException None = false.
Proof. reflexivity. Qed.

(** C7.  [ShouldAbortOnUncaughtException] answers true exactly when the
    isolate has a current environment, that environment is on the main
    thread or is not stopping, its abort-on-uncaught toggle is set, and
    execution is not inside a should-not-abort scope. *)
Theorem ShouldAbortOnUncaughtException_true_iff (current : option Environment) :
  ShouldAbortOnUncaughtException current = true
  ↔ ∃ env, current = Some env
           ∧ (is_main_thread env = true ∨ is_stopping env = false)
           ∧ should_abort_on_uncaught_toggle env ≠ 0
           ∧ inside_should_not_abort_on_uncaught_scope env = false.
Proof.
  unfold ShouldAbortOnUncaughtException. split.
  - destruct current as [env|]; [|done].
    rewrite !andb_true_iff, orb_true_iff, !negb_true_iff, N.eqb_neq.
    intros [[Hm Ht] Hs]. exists env. done.
  - intros (env & -> & Hm & Ht & Hs).
    rewrite !andb_true_iff, orb_true_iff, !negb_true_iff, N.eqb_neq. done.
Qed.

(** *** Further properties of environments *)

Section TeardownSeen.

Variable Embedder : Type.
Variable cleanup_hook : nat → Environment → Embedder → Embedder.
Variable at_exit_function : nat → Environment → Embedder → Embedder.

Local Abbreviation FreeEnvironment :=
  (FreeEnvironment Embedder cleanup_hook at_exit_function).

Lemma seen_in_teardown env entered e seen :
  e ∈ teardown_events env entered → seen_by e = Some seen →
  ∃ hooks, seen = with_cleanup_hooks
                    (with_sub_worker_contexts (set_stopped env true) [])
                    hooks.
Proof.
  unfold teardown_events, cleanup_events, at_exit_events, drain_events,
    torn_down.
  rewrite !elem_of_app, !elem_of_cons, !list_elem_of_fmap,
    elem_of_lookup_imap.
  intros [He|[He|[He|[He|[He|[He|He]]]]]] Hs.
  - destruct He as [->|[->|[->|He]]]; try done. by apply elem_of_nil in He.
  - by destruct He as (? & -> & _).
  - destruct He as (i & hook & -> & _). injection Hs as <-. by eexists.
  - destruct He as (fn & -> & _). injection Hs as <-. by eexists.
  - destruct He as [->|[->|He]]; try done. by apply elem_of_nil in He.
  - destruct (platform (isolate_data env)).
    + apply list_elem_of_singleton in He as ->. done.
    + by apply elem_of_nil in He.
  - destruct He as [->|He]; [|by apply elem_of_nil in He].
    injection Hs as <-. by eexists.
Qed.

(** X17.  While [FreeEnvironment] tears an environment down, the default
    abort-on-uncaught-exception predicate is off for a worker and unchanged
    for the main thread: on the environment that any cleanup hook or
    at-exit function is run on, and on the one that is deleted, it answers
    false when the environment is not on the main thread, and what it
    answered before teardown when it is. *)
Theorem teardown_switches_abort_off_for_workers env (w : Process Embedder)
    i e seen :
  trace (FreeEnvironment env w) !! (length (trace w) + i)%nat = Some e →
  seen_by e = Some seen →
  (is_main_thread env = false →
   ShouldAbortOnUncaughtException (Some seen) = false)
  ∧ (is_main_thread env = true →
     ShouldAbortOnUncaughtException (Some seen)
     = ShouldAbortOnUncaughtException (Some env)).
Proof.
  destruct (FreeEnvironment_trace Embedder cleanup_hook at_exit_function env w)
    as (-> & _ & _).
  rewrite lookup_app_r by lia.
  replace (length (trace w) + i - length (trace w))%nat with i by lia.
  intros He Hs.
  assert (Hin : e ∈ teardown_events env (entered_contexts w))
    by (apply list_elem_of_lookup; eauto).
  destruct (seen_in_teardown _ _ _ _ Hin Hs) as [hooks ->].
  unfold ShouldAbortOnUncaughtException, is_stopping. simpl.
  split; intros ->; simpl; [done|reflexivity].
Qed.

End TeardownSeen.

Lemma teardown_switches_abort_off_for_workers_witness :
  trace (Env.FreeEnvironment (list sight) log_sight log_sight sample_env idle)
    !! 4%nat
  = Some (CleanupHookRun 11
            (with_cleanup_hooks
               (with_sub_worker_contexts (set_stopped sample_env true) [])
               [11; 12]%nat) [5%nat])
  ∧ ShouldAbortOnUncaughtException (Some sample_env) = true
  ∧ ShouldAbortOnUncaughtException
      (Some (with_cleanup_hooks
               (with_sub_worker_contexts (set_stopped sample_env true) [])
               [11; 12]%nat)) = false.
Proof.
  split; [reflexivity|]. split; [reflexivity|].
  destruct (teardown_switches_abort_off_for_workers (list sight) log_sight
              log_sight sample_env idle 4 _ _ eq_refl eq_refl) as [H _].
  by apply H.
Defined.

Section Overload.

Variable Embedder : Type.
Variable cleanup_hook : nat → Environment → Embedder → Embedder.
Variable at_exit_function : nat → Environment → Embedder → Embedder.
Variable new_Environment :
  IsolateData → nat → list string → list string → N → N → Environment.
Variable RunBootstrapping :
  Environment → Process Embedder → Maybe Value * Environment * Process Embedder.
Variable ExecuteBootstrapper :
  Environment → string → list string → Process Embedder →
  Maybe Value * Environment * Process Embedder.
Variable kOwnsProcessState : N.
Variable kPrepareForExecution : N.
Variable kDefaultFlags : N.
Variable default_thread_id : N.

Local Abbreviation CreateEnvironment_argv :=
  (CreateEnvironment_argv Embedder cleanup_hook at_exit_function
     new_Environment RunBootstrapping ExecuteBootstrapper kOwnsProcessState
     kPrepareForExecution kDefaultFlags default_thread_id).

Lemma has_flag_lor flags flag :
  flag ≠ 0 → has_flag (N.lor flags flag) flag = true.
Proof.
  intros Hne. unfold has_flag.
  assert (H : N.land (N.lor flags flag) flag = flag).
  { apply N.bits_inj. intros n.
    rewrite N.land_spec, N.lor_spec.
    destruct (N.testbit flags n), (N.testbit flag n); done. }
  rewrite H. by destruct (N.eqb_spec flag 0).
Qed.


End Overload.


(** *** Names of main scripts *)

(** X19.  The name under which a main script given as source is
    registered determines the thread id of its environment: two
    environments get the same name exactly when they have the same thread
    id. *)
Theorem main_script_name_inj (env1 env2 : Environment) :
  main_script_name env1 = main_script_name env2
  ↔ thread_id env1 = thread_id env2.
Proof.
  unfold main_script_name. split.
  - intros H. apply String.app_inj in H. by apply (inj pretty) in H.
  - by intros ->.
Qed.

End EnvFacts.

Module HeapSizingFacts.
Import HeapSizing.

(** C3, as amended.  The memory handed to the engine is the total memory
    the operating system reports, capped by the cgroup constraint when there
    is one (a constraint of 0 means none).  The defaults are configured with
    it whenever it is not 0, also without any constraint; the parameters are
    left alone only when the total memory is reported as 0. *)
Theorem SetIsolateCreateParamsForNode_effective_memory
    (constrained total : N) (params : CreateParams) :
  (total = 0 →
     SetIsolateCreateParamsForNode constrained total params = params)
  ∧ (0 < total → constrained = 0 →
       SetIsolateCreateParamsForNode constrained total params
       = ConfigureDefaults total 0 params)
  ∧ (0 < total → 0 < constrained →
       SetIsolateCreateParamsForNode constrained total params
       = ConfigureDefaults (N.min total constrained) 0 params).
Proof.
  unfold SetIsolateCreateParamsForNode. split; [|split].
  - intros ->. destruct (N.ltb_spec 0 constrained); [|done].
    by rewrite N.min_0_l.
  - intros Ht ->. simpl. destruct (N.ltb_spec 0 total); [done|lia].
  - intros Ht Hc. destruct (N.ltb_spec 0 constrained); [|lia].
    destruct (N.ltb_spec 0 (N.min total constrained)); [done|lia].
Qed.

Lemma SetIsolateCreateParamsForNode_effective_memory_witness :
  SetIsolateCreateParamsForNode (2 * GiB) 0 default_params = default_params
  ∧ SetIsolateCreateParamsForNode 0 (8 * GiB) default_params
    = ConfigureDefaults (8 * GiB) 0 default_params
  ∧ SetIsolateCreateParamsForNode (2 * GiB) (8 * GiB) default_params
    = ConfigureDefaults (N.min (8 * GiB) (2 * GiB)) 0 default_params.
Proof.
  split; [|split].
  - by apply (SetIsolateCreateParamsForNode_effective_memory (2 * GiB) 0).
  - by apply (SetIsolateCreateParamsForNode_effective_memory 0 (8 * GiB)).
  - by apply (SetIsolateCreateParamsForNode_effective_memory
                (2 * GiB) (8 * GiB)).
Defined.

(** C3, as stated, fails: with no constraint detectable and 8 GiB of
    memory the parameters do not stay at the built-in defaults. *)
Lemma SetIsolateCreateParamsForNode_configures_without_constraint :
  constraints (SetIsolateCreateParamsForNode 0 (8 * GiB) default_params)
  = Some (8 * GiB, 0)
  ∧ SetIsolateCreateParamsForNode 0 (8 * GiB) default_params ≠ default_params.
Proof. split; [reflexivity|discriminate]. Qed.

End HeapSizingFacts.

Module ThreadIdFacts.
Import ThreadIds.

Lemma allocate_many_ids (n : nat) : ∀ next : N,
  next + N.of_nat n ≤ 2 ^ 64 →
  (allocate_many n next).1
  = (λ k, {| id := next + N.of_nat k |}) <$> seq 0 n.
Proof.
  induction n as [|n IH]; intros next Hb; [done|].
  cbn [allocate_many]. unfold AllocateEnvironmentThreadId.
  destruct (allocate_many n ((next + 1) mod 2 ^ 64)) as [ts next2] eqn:E.
  cbn [fst seq fmap list_fmap]. f_equal.
  { by rewrite N.add_0_r. }
  destruct (decide (n = 0%nat)) as [->|Hn].
  { simpl in E. by injection E as <- _. }
  assert (Hm : (next + 1) mod 2 ^ 64 = next + 1) by (apply N.mod_small; lia).
  rewrite Hm in E.
  specialize (IH (next + 1)). rewrite E in IH. cbn [fst] in IH.
  rewrite IH by lia.
  rewrite <- fmap_S_seq, <- list_fmap_compose.
  apply list_fmap_ext. intros i k _. simpl. f_equal. lia.
Qed.

Lemma allocate_many_length (n : nat) : ∀ next : N,
  length (allocate_many n next).1 = n.
Proof.
  induction n as [|n IH]; intros next; [done|].
  cbn [allocate_many]. unfold AllocateEnvironmentThreadId.
  specialize (IH ((next + 1) mod 2 ^ 64)).
  destruct (allocate_many n ((next + 1) mod 2 ^ 64)) as [ts next2].
  simpl in *. by rewrite IH.
Qed.

Lemma allocate_many_lookup (n i : nat) (t : ThreadId) :
  N.of_nat n ≤ 2 ^ 64 →
  (allocate_many n next_thread_id_initial).1 !! i = Some t →
  id t = N.of_nat i.
Proof.
  intros Hb. rewrite allocate_many_ids by (unfold next_thread_id_initial; lia).
  rewrite list_lookup_fmap. intros Ht.
  apply fmap_Some in Ht as (k & Hk & ->).
  apply lookup_seq in Hk as [-> _]. simpl. unfold next_thread_id_initial. lia.
Qed.

(** The counter is 64 bits wide: the allocation after id 2^64 - 1 leaves it
    at 0 again. *)
Lemma AllocateEnvironmentThreadId_wraps :
  AllocateEnvironmentThreadId (2 ^ 64 - 1) = ({| id := 2 ^ 64 - 1 |}, 0).
Proof. reflexivity. Qed.

(** C9.  The counter starts at 0; an allocation returns the value of the
    counter and leaves it incremented (modulo 2^64, the width of the
    counter), and nothing else writes it.  Among the first 2^64 allocations
    of a process the i-th one (counting from 0) gets id i, so the ids of any
    two of them differ and grow with the order of creation. *)
Theorem thread_ids_distinct_increasing (n : nat) :
  N.of_nat n ≤ 2 ^ 64 →
  let ids := (allocate_many n next_thread_id_initial).1 in
  next_thread_id_initial = 0
  ∧ (∀ next, AllocateEnvironmentThreadId next
             = ({| id := next |}, (next + 1) mod 2 ^ 64))
  ∧ length ids = n
  ∧ (∀ i t, ids !! i = Some t → id t = N.of_nat i)
  ∧ (∀ i j a b, ids !! i = Some a → ids !! j = Some b → (i < j)%nat →
       id a < id b)
  ∧ (∀ i j a b, ids !! i = Some a → ids !! j = Some b → i ≠ j → a ≠ b).
Proof.
  intros Hb ids. split; [done|]. split; [done|].
  split; [apply allocate_many_length|]. split; [|split].
  - intros i t. by apply allocate_many_lookup.
  - intros i j a b Ha Hb' Hlt.
    apply (allocate_many_lookup n) in Ha; [|done].
    apply (allocate_many_lookup n) in Hb'; [|done]. lia.
  - intros i j a b Ha Hb' Hne Heq. subst b.
    apply (allocate_many_lookup n) in Ha; [|done].
    apply (allocate_many_lookup n) in Hb'; [|done]. lia.
Qed.

Lemma thread_ids_distinct_increasing_witness :
  (allocate_many 3 next_thread_id_initial).1
  = [{| id := 0 |}; {| id := 1 |}; {| id := 2 |}]
  ∧ (∀ i j a b,
       (allocate_many 3 next_thread_id_initial).1 !! i = Some a →
       (allocate_many 3 next_thread_id_initial).1 !! j = Some b →
       (i < j)%nat → id a < id b).
Proof.
  split; [reflexivity|].
  assert (Hb : N.of_nat 3 ≤ 2 ^ 64) by (vm_compute; discriminate).
  destruct (thread_ids_distinct_increasing 3 Hb) as (_ & _ & _ & _ & H & _).
  exact H.
Defined.

(** X22.  The counter after [n] allocations is its start plus [n], modulo
    2^64, and every id handed out fits in 64 bits: the counter wraps, it
    never leaves the range of a [uint64_t]. *)
Theorem allocate_many_counter (n : nat) : ∀ next : N,
  next < 2 ^ 64 →
  (allocate_many n next).2 = (next + N.of_nat n) mod 2 ^ 64
  ∧ (∀ t, t ∈ (allocate_many n next).1 → id t < 2 ^ 64).
Proof.
  induction n as [|n IH]; intros next Hb.
  - simpl. rewrite N.add_0_r, N.mod_small by done. split; [done|].
    intros t Ht. by apply elem_of_nil in Ht.
  - cbn [allocate_many]. unfold AllocateEnvironmentThreadId.
    assert (Hm : (next + 1) mod 2 ^ 64 < 2 ^ 64) by (by apply N.mod_lt).
    destruct (IH _ Hm) as [IH1 IH2].
    destruct (allocate_many n ((next + 1) mod 2 ^ 64)) as [ts next2].
    simpl in *. split.
    + rewrite IH1, N.Div0.add_mod_idemp_l. f_equal. lia.
    + intros t [->|Ht]%elem_of_cons; [done|]. by apply IH2.
Qed.

Lemma allocate_many_counter_witness :
  (allocate_many 2 (2 ^ 64 - 1)).2 = 1
  ∧ (allocate_many 2 (2 ^ 64 - 1)).1
    = [{| id := 2 ^ 64 - 1 |}; {| id := 0 |}].
Proof.
  assert (Hb : 2 ^ 64 - 1 < 2 ^ 64) by reflexivity.
  destruct (allocate_many_counter 2 (2 ^ 64 - 1) Hb) as [H _].
  split; [rewrite H|]; reflexivity.
Defined.

End ThreadIdFacts.

Module BootstrapFacts.
Import Engine Bootstrap.

Lemma Global_store ctx id o : Global (store_object ctx id o) = Global ctx.
Proof. reflexivity. Qed.

Lemma object_at_store ctx id o : object_at (store_object ctx id o) id = o.
Proof. unfold object_at, store_object. simpl. by rewrite lookup_insert_eq. Qed.

Lemma GetPrivate_SetPrivate ctx obj key v :
  Object_GetPrivate (Object_SetPrivate ctx obj key v).2 obj key = Just v.
Proof.
  unfold Object_GetPrivate, Object_SetPrivate. simpl.
  rewrite object_at_store. simpl. by rewrite lookup_insert_eq.
Qed.

Lemma GetPerContextExports_existing ctx o :
  Object_GetPrivate ctx (Global ctx) per_context_binding_exports
  = Just (VObject o) →
  GetPerContextExports ctx = (Just o, ctx).
Proof. intros H. unfold GetPerContextExports. by rewrite H. Qed.

Lemma GetPerContextExports_fresh ctx v :
  Object_GetPrivate ctx (Global ctx) per_context_binding_exports = Just v →
  IsObject v = false →
  ∃ ctx',
    GetPerContextExports ctx = (Just (next_object ctx), ctx')
    ∧ Object_GetPrivate ctx' (Global ctx') per_context_binding_exports
      = Just (VObject (next_object ctx))
    ∧ next_object ctx' = S (next_object ctx).
Proof.
  intros H Hv. unfold GetPerContextExports. rewrite H. simpl.
  destruct v; try discriminate Hv; simpl;
    (eexists; split; [reflexivity|]; split; [|reflexivity]);
    unfold Object_GetPrivate; simpl; rewrite object_at_store; simpl;
    by rewrite lookup_insert_eq.
Qed.

(** *** The per-context exports object *)

(** C10.  [GetPerContextExports]: when the private slot of the global
    object holds an object, that object is returned and the context is left
    as it is; when it holds anything else, a new object is made, stored in
    the slot and returned.  A second call on the context the first one left
    returns the same object and changes nothing. *)
Theorem GetPerContextExports_idempotent (ctx : Context) :
  (∀ o, Object_GetPrivate ctx (Global ctx) per_context_binding_exports
        = Just (VObject o) →
        GetPerContextExports ctx = (Just o, ctx))
  ∧ (∀ v, Object_GetPrivate ctx (Global ctx) per_context_binding_exports
          = Just v →
          IsObject v = false →
          ∃ ctx',
            GetPerContextExports ctx = (Just (next_object ctx), ctx')
            ∧ Object_GetPrivate ctx' (Global ctx') per_context_binding_exports
              = Just (VObject (next_object ctx))
            ∧ next_object ctx' = S (next_object ctx))
  ∧ (∀ o ctx1, GetPerContextExports ctx = (Just o, ctx1) →
       GetPerContextExports ctx1 = (Just o, ctx1)).
Proof.
  split; [apply GetPerContextExports_existing|].
  split; [apply GetPerContextExports_fresh|].
  intros o ctx1 H. apply GetPerContextExports_existing.
  destruct (Object_GetPrivate ctx (Global ctx) per_context_binding_exports)
    as [v|] eqn:Hslot; [|done].
  destruct (IsObject v) eqn:Hv.
  - destruct v; try discriminate Hv.
    rewrite (GetPerContextExports_existing ctx id Hslot) in H.
    by injection H as <- <-.
  - destruct (GetPerContextExports_fresh ctx v Hslot Hv) as (ctx' & E & Hs & _).
    rewrite E in H. by injection H as <- <-.
Qed.

Lemma GetPerContextExports_idempotent_witness :
  (∃ ctx', GetPerContextExports bare_context = (Just 2%nat, ctx')
           ∧ Object_GetPrivate ctx' (Global ctx') per_context_binding_exports
             = Just (VObject 2)
           ∧ next_object ctx' = 3%nat)
  ∧ GetPerContextExports (GetPerContextExports bare_context).2
    = (Just 2%nat, (GetPerContextExports bare_context).2)
  ∧ GetPerContextExports (GetPerContextExports bare_context).2
    = GetPerContextExports (GetPerContextExports bare_context).2.
Proof.
  split; [|split].
  - destruct (GetPerContextExports_idempotent bare_context) as (_ & H & _).
    exact (H VUndefined eq_refl eq_refl).
  - destruct (GetPerContextExports_idempotent bare_context) as (_ & _ & H).
    exact (H 2%nat (GetPerContextExports bare_context).2 eq_refl).
  - destruct (GetPerContextExports_idempotent
                (GetPerContextExports bare_context).2) as (H & _ & _).
    rewrite (H 2%nat eq_refl). reflexivity.
Defined.

(** *** Context initialisation *)

Lemma object_at_store_ne ctx id o id' :
  id ≠ id' → object_at (store_object ctx id o) id' = object_at ctx id'.
Proof.
  intros Hne. unfold object_at, store_object. simpl.
  by rewrite lookup_insert_ne.
Qed.

Lemma same_but_refl keys c : same_but keys c c.
Proof. repeat split. Qed.

Lemma same_but_trans keys1 keys2 c1 c2 c3 :
  same_but keys1 c1 c2 → same_but keys2 c2 c3 →
  same_but (keys1 ++ keys2) c1 c3.
Proof.
  intros (Hg1 & Hp1 & Hn1 & He1 & Ho1) (Hg2 & Hp2 & Hn2 & He2 & Ho2).
  split; [congruence|]. split; [congruence|]. split; [congruence|].
  split; [congruence|]. intros o.
  destruct (Ho1 o) as (Hv1 & Hr1 & Hk1), (Ho2 o) as (Hv2 & Hr2 & Hk2).
  split; [congruence|]. split; [congruence|].
  intros k Hk. rewrite not_elem_of_app in Hk. destruct Hk as [Hk1' Hk2'].
  rewrite Hk2 by done. by apply Hk1.
Qed.

(** What [Object_Delete] answers and leaves. *)
Lemma Object_Delete_inv ctx o key r ctx' :
  Object_Delete ctx o key = (r, ctx') →
  same_but [key] ctx ctx'
  ∧ same_traps ctx ctx'
  ∧ if delete_throws (object_at ctx o)
    then r = Nothing ∧ ctx' = ctx
    else (∃ b, r = Just b)
         ∧ match properties (object_at ctx' o) !! key with
           | None => True
           | Some p => is_configurable p = false ∧ ctx' = ctx
           end.
Proof.
  unfold Object_Delete.
  destruct (delete_throws (object_at ctx o)) eqn:Ht.
  { intros [= <- <-]. split; [apply same_but_refl|]. by split. }
  destruct (properties (object_at ctx o) !! key) as [p|] eqn:Hp.
  - destruct (is_configurable p) eqn:Hc; intros [= <- <-].
    + split; [|split].
      * split; [done|]. split; [done|]. split; [done|]. split; [done|].
        intros o'. destruct (decide (o = o')) as [<-|Hne].
        -- rewrite object_at_store. simpl. split; [done|]. split; [done|].
           intros k Hk. rewrite list_elem_of_singleton in Hk.
           by rewrite lookup_delete_ne.
        -- by rewrite object_at_store_ne.
      * intros o'. destruct (decide (o = o')) as [<-|Hne].
        -- by rewrite object_at_store.
        -- by rewrite object_at_store_ne.
      * split; [by eexists|].
        rewrite object_at_store. simpl. by rewrite lookup_delete_eq.
    + split; [apply same_but_refl|]. split; [done|].
      split; [by eexists|]. by rewrite Hp.
  - intros [= <- <-]. split; [apply same_but_refl|]. split; [done|].
    split; [by eexists|]. by rewrite Hp.
Qed.

Lemma lookup_chain_same_but keys c c' k :
  same_but keys c c' → k ∉ keys →
  ∀ links o, lookup_chain links c' o k = lookup_chain links c o k.
Proof.
  intros (_ & _ & _ & _ & Ho) Hk links.
  induction links as [|links IH]; intros o; [done|]. simpl.
  destruct (Ho o) as (_ & -> & Hprops). rewrite Hprops by done.
  destruct (properties (object_at c o) !! k) as [[]|]; try done.
  destruct (prototype (object_at c o)); first [done|apply IH].
Qed.

Lemma Object_Get_same_but keys c c' o k :
  same_but keys c c' → k ∉ keys → Object_Get c' o k = Object_Get c o k.
Proof.
  intros Hsame Hk. unfold Object_Get.
  pose proof Hsame as (_ & _ & -> & _).
  by apply (lookup_chain_same_but keys).
Qed.

Lemma delete_builtin_same_but object_name property_name c c' :
  delete_builtin object_name property_name c = Done c' →
  same_but [property_name] c c' ∧ same_traps c c'.
Proof.
  unfold delete_builtin.
  destruct (ToLocal (Object_Get c (Global c) object_name)) as [[]|];
    try (intros [= <-]; split; [apply same_but_refl|done]).
  destruct (Object_Delete c id property_name) as [r c1] eqn:E.
  apply Object_Delete_inv in E as (Hsame & Htraps & Hr).
  destruct r as [b|]; simpl; [|done]. by intros [= <-].
Qed.

(** A deletion that returns did not meet an object that throws. *)
Lemma delete_builtin_was_quiet object_name property_name c c' :
  delete_builtin object_name property_name c = Done c' →
  deletes_quietly object_name c.
Proof.
  unfold delete_builtin, deletes_quietly.
  destruct (Object_Get c (Global c) object_name) as [[| | | |o]|]; simpl;
    try done.
  destruct (Object_Delete c o property_name) as [r c1] eqn:E.
  apply Object_Delete_inv in E as (_ & _ & Hr).
  destruct (delete_throws (object_at c o)); [|done].
  by destruct Hr as [-> _].
Qed.

Lemma delete_builtin_returns object_name property_name c :
  deletes_quietly object_name c →
  ∃ c', delete_builtin object_name property_name c = Done c'.
Proof.
  unfold delete_builtin, deletes_quietly.
  destruct (Object_Get c (Global c) object_name) as [[| | | |o]|]; simpl;
    try by eexists.
  intros Hq.
  destruct (Object_Delete c o property_name) as [r c1] eqn:E.
  apply Object_Delete_inv in E as (_ & _ & Hr). rewrite Hq in Hr.
  destruct Hr as [[b ->] _]. by eexists.
Qed.

Lemma delete_builtin_throws object_name property_name c o :
  Object_Get c (Global c) object_name = Just (VObject o) →
  delete_throws (object_at c o) = true →
  delete_builtin object_name property_name c = Fatal.
Proof.
  intros Hg Ht. unfold delete_builtin. rewrite Hg. simpl.
  unfold Object_Delete. by rewrite Ht.
Qed.

Lemma delete_builtin_absent object_name property_name ctx :
  target_absent object_name property_name ctx →
  delete_builtin object_name property_name ctx = Done ctx.
Proof.
  unfold target_absent, delete_builtin.
  destruct (Object_Get ctx (Global ctx) object_name) as [[]|]; simpl;
    try done.
  intros [Ht H]. unfold Object_Delete. by rewrite Ht, H.
Qed.

Lemma delete_builtin_present object_name property_name ctx o p :
  Object_Get ctx (Global ctx) object_name = Just (VObject o) →
  delete_throws (object_at ctx o) = false →
  properties (object_at ctx o) !! property_name = Some p →
  is_configurable p = true →
  ∃ ctx', delete_builtin object_name property_name ctx = Done ctx'
          ∧ properties (object_at ctx' o) !! property_name = None.
Proof.
  intros Hg Ht Hp Hc. unfold delete_builtin. rewrite Hg. simpl.
  unfold Object_Delete. rewrite Ht, Hp, Hc. simpl.
  eexists. split; [reflexivity|].
  rewrite object_at_store. simpl. apply lookup_delete_eq.
Qed.

Lemma delete_builtin_settles object_name property_name c c' :
  object_name ≠ property_name →
  delete_builtin object_name property_name c = Done c' →
  absent_or_fixed object_name property_name c'.
Proof.
  intros Hne. unfold delete_builtin, absent_or_fixed.
  destruct (Object_Get c (Global c) object_name) as [v|] eqn:Hg; simpl.
  - destruct v as [| | | |o];
      try (intros [= <-]; by rewrite Hg).
    destruct (Object_Delete c o property_name) as [r c1] eqn:E.
    apply Object_Delete_inv in E as (Hsame & _ & Hr).
    destruct r as [b|]; simpl; [|done]. intros [= <-].
    pose proof Hsame as (HG & _). rewrite HG.
    rewrite (Object_Get_same_but [property_name] c c1), Hg;
      [|done|by rewrite list_elem_of_singleton].
    destruct (delete_throws (object_at c o)); [by destruct Hr|].
    destruct Hr as [_ Hp].
    destruct (properties (object_at c1 o) !! property_name); [|done].
    by destruct Hp.
  - intros [= <-]. by rewrite Hg.
Qed.

Lemma absent_or_fixed_same_but keys object_name property_name c c' :
  same_but keys c c' → object_name ∉ keys → property_name ∉ keys →
  absent_or_fixed object_name property_name c →
  absent_or_fixed object_name property_name c'.
Proof.
  intros Hsame Hn Hp. unfold absent_or_fixed.
  rewrite (Object_Get_same_but keys c c') by done.
  destruct Hsame as (-> & _ & _ & _ & Ho).
  destruct (Object_Get c (Global c) object_name) as [[| | | |o]|]; try done.
  destruct (Ho o) as (_ & _ & Hprops). by rewrite Hprops.
Qed.

Lemma deletes_quietly_same_but keys object_name c c' :
  same_but keys c c' → same_traps c c' → object_name ∉ keys →
  deletes_quietly object_name c → deletes_quietly object_name c'.
Proof.
  intros Hsame Htraps Hn. unfold deletes_quietly.
  rewrite (Object_Get_same_but keys c c') by done.
  destruct Hsame as (-> & _).
  destruct (Object_Get c (Global c) object_name) as [[| | | |o]|]; try done.
  by rewrite Htraps.
Qed.

Lemma delete_builtin_fixed object_name property_name c :
  absent_or_fixed object_name property_name c →
  deletes_quietly object_name c →
  delete_builtin object_name property_name c = Done c.
Proof.
  unfold absent_or_fixed, deletes_quietly, delete_builtin.
  destruct (Object_Get c (Global c) object_name) as [[| | | |o]|]; simpl;
    try done.
  intros Hp Ht. unfold Object_Delete. rewrite Ht.
  destruct (properties (object_at c o) !! property_name) as [p|]; [|done].
  by rewrite Hp.
Qed.

Lemma InitializeContextRuntime_inv c c' :
  InitializeContextRuntime c = Done c' →
  ∃ c1, delete_builtin "Intl" "v8BreakIterator" c = Done c1
        ∧ delete_builtin "Atomics" "wake" c1 = Done c'.
Proof.
  unfold InitializeContextRuntime.
  destruct (delete_builtin "Intl" "v8BreakIterator" c) as [c1|]; [|done].
  simpl. intros H. by exists c1.
Qed.

Lemma InitializeContextRuntime_settles c c' :
  InitializeContextRuntime c = Done c' →
  absent_or_fixed "Intl" "v8BreakIterator" c'
  ∧ absent_or_fixed "Atomics" "wake" c'.
Proof.
  intros (c1 & H1 & H2)%InitializeContextRuntime_inv. split.
  - apply (absent_or_fixed_same_but ["wake"] _ _ c1).
    + by apply (delete_builtin_same_but "Atomics").
    + by rewrite list_elem_of_singleton.
    + by rewrite list_elem_of_singleton.
    + by apply (delete_builtin_settles _ _ c).
  - by apply (delete_builtin_settles _ _ c1).
Qed.

Lemma InitializeContextRuntime_quiet_after c c' :
  InitializeContextRuntime c = Done c' →
  deletes_quietly "Intl" c' ∧ deletes_quietly "Atomics" c'.
Proof.
  intros (c1 & H1 & H2)%InitializeContextRuntime_inv.
  destruct (delete_builtin_same_but _ _ _ _ H1) as [S1 T1].
  destruct (delete_builtin_same_but _ _ _ _ H2) as [S2 T2].
  apply delete_builtin_was_quiet in H1, H2.
  split.
  - apply (deletes_quietly_same_but ["wake"] _ c1);
      [done|done|by rewrite list_elem_of_singleton|].
    apply (deletes_quietly_same_but ["v8BreakIterator"] _ c);
      [done|done|by rewrite list_elem_of_singleton|done].
  - apply (deletes_quietly_same_but ["wake"] _ c1);
      [done|done|by rewrite list_elem_of_singleton|done].
Qed.

Lemma InitializeContextRuntime_returns c :
  deletes_quietly "Intl" c → deletes_quietly "Atomics" c →
  ∃ c', InitializeContextRuntime c = Done c'.
Proof.
  intros H1 H2. unfold InitializeContextRuntime.
  destruct (delete_builtin_returns "Intl" "v8BreakIterator" c H1) as [c1 E].
  rewrite E. simpl. apply delete_builtin_returns.
  destruct (delete_builtin_same_but _ _ _ _ E) as [S1 T1].
  apply (deletes_quietly_same_but ["v8BreakIterator"] _ c);
    [done|done|by rewrite list_elem_of_singleton|done].
Qed.

(** *** Further properties of context initialisation *)





Lemma InitializeContextRuntime_same_but c c' :
  InitializeContextRuntime c = Done c' →
  same_but ["v8BreakIterator"; "wake"] c c'.
Proof.
  intros (c1 & E1 & E2)%InitializeContextRuntime_inv.
  apply (same_but_trans ["v8BreakIterator"] ["wake"] c c1 c').
  - by apply (delete_builtin_same_but "Intl").
  - by apply (delete_builtin_same_but "Atomics").
Qed.



Section Scripts.

Variable Function : Type.
Variable LookupAndCompile : Context → string → list string → Maybe Function.
Variable Call : Function → Context → Value → list Value → Maybe Value * Context.
Variable kAllowWasmCodeGeneration : nat.

Local Abbreviation InitializeContextForSnapshot :=
  (InitializeContextForSnapshot Function LookupAndCompile Call
     kAllowWasmCodeGeneration).
Local Abbreviation InitializeContext :=
  (InitializeContext Function LookupAndCompile Call kAllowWasmCodeGeneration).


Local Abbreviation NewContext :=
  (NewContext Function LookupAndCompile Call kAllowWasmCodeGeneration).
Local Abbreviation AllowWasmCodeGenerationCallback :=
  (AllowWasmCodeGenerationCallback kAllowWasmCodeGeneration).
Local Abbreviation run_context_files :=
  (run_context_files Function LookupAndCompile Call).

(** X15.  [NewContext] returns a context only when [Context::New] gave
    one and both stages of its initialisation went through on it; the
    context returned is the one the runtime stage left, with
    [Intl.v8BreakIterator] and [Atomics.wake] out of reach.  When
    [Context::New] gives nothing, or the snapshot stage fails, the handle
    returned is empty. *)
Theorem NewContext_passed_both_stages (created : Maybe Context) :
  (∀ ctx', NewContext created = Done (Just ctx') →
     ∃ ctx0 ctx1,
       created = Just ctx0
       ∧ InitializeContextForSnapshot ctx0 = Done (true, ctx1)
       ∧ InitializeContextRuntime ctx1 = Done ctx'
       ∧ absent_or_fixed "Intl" "v8BreakIterator" ctx'
       ∧ absent_or_fixed "Atomics" "wake" ctx')
  ∧ (created = Nothing → NewContext created = Done Nothing)
  ∧ (∀ ctx0 ctx1, created = Just ctx0 →
       InitializeContextForSnapshot ctx0 = Done (false, ctx1) →
       NewContext created = Done Nothing).
Proof.
  split; [|split].
  - intros ctx'. destruct created as [ctx0|]; [|done].
    unfold Bootstrap.NewContext, Bootstrap.InitializeContext.
    destruct (InitializeContextForSnapshot ctx0) as [[ok ctx1]|] eqn:E0;
      [|done].
    destruct ok; simpl; [|done].
    destruct (InitializeContextRuntime ctx1) as [ctx2|] eqn:E; [|done].
    simpl. intros [= <-]. exists ctx0, ctx1.
    split; [done|]. split; [done|]. split; [done|].
    by apply InitializeContextRuntime_settles in E.
  - by intros ->.
  - intros ctx0 ctx1 -> H.
    unfold Bootstrap.NewContext, Bootstrap.InitializeContext.
    by rewrite H.
Qed.

Lemma GetPerContextExports_embedder_data c :
  embedder_data (GetPerContextExports c).2 = embedder_data c.
Proof.
  unfold GetPerContextExports. simpl.
  by destruct (default VUndefined
                 (privates (object_at c (Global c))
                    !! per_context_binding_exports)).
Qed.

Lemma Object_Set_embedder_data c o key v :
  embedder_data (Object_Set c o key v).2 = embedder_data c.
Proof.
  unfold Object_Set.
  destruct (properties (object_at c o) !! key) as [[? ?|? [] ?]|]; done.
Qed.

Lemma run_context_files_embedder_data index files : ∀ exports primordials c,
  (∀ fn c receiver arguments,
     GetEmbedderData (Call fn c receiver arguments).2 index
     = GetEmbedderData c index) →
  GetEmbedderData (run_context_files files exports primordials c).2 index
  = GetEmbedderData c index.
Proof.
  intros exports primordials c HCall. revert c.
  induction files as [|module rest IH]; intros c; simpl; [done|].
  destruct (LookupAndCompile c module _) as [fn|]; [|done].
  specialize (HCall fn c VUndefined
                [VObject (Global c); VObject exports; VObject primordials]).
  destruct (Call fn c VUndefined _) as [result c1]. simpl in HCall.
  destruct (IsEmpty result); simpl; [done|]. by rewrite IH.
Qed.

(** X16.  [AllowWasmCodeGenerationCallback] reads only its own
    embedder-data slot: once the slot holds a value, it answers true exactly
    for undefined and for true, and writing another slot does not change
    its answer.  A context that went through [InitializeContext], or only
    through its snapshot stage, allows WebAssembly code generation, whatever
    the slot held before, provided the per-context scripts leave the slot
    alone. *)
Theorem AllowWasmCodeGenerationCallback_after_initialization :
  (∀ c v, AllowWasmCodeGenerationCallback
            (SetEmbedderData c kAllowWasmCodeGeneration v)
          = Some (IsUndefined v || IsTrue v))
  ∧ (∀ c index v, index ≠ kAllowWasmCodeGeneration →
       AllowWasmCodeGenerationCallback (SetEmbedderData c index v)
       = AllowWasmCodeGenerationCallback c)
  ∧ ((∀ fn c receiver arguments,
        GetEmbedderData (Call fn c receiver arguments).2
          kAllowWasmCodeGeneration
        = GetEmbedderData c kAllowWasmCodeGeneration) →
     ∀ ctx ok ctx',
       InitializeContextForSnapshot ctx = Done (ok, ctx')
       ∨ InitializeContext ctx = Done (ok, ctx') →
       AllowWasmCodeGenerationCallback ctx' = Some true).
Proof.
  split; [|split].
  - intros c v. unfold Bootstrap.AllowWasmCodeGenerationCallback,
      GetEmbedderData, SetEmbedderData. simpl. by rewrite lookup_insert_eq.
  - intros c index v Hne. unfold Bootstrap.AllowWasmCodeGenerationCallback,
      GetEmbedderData, SetEmbedderData. simpl.
    by rewrite lookup_insert_ne.
  - intros HCall.
    assert (Hsnap : ∀ ctx ok ctx',
              InitializeContextForSnapshot ctx = Done (ok, ctx') →
              GetEmbedderData ctx' kAllowWasmCodeGeneration
              = Some (VBoolean true)).
    { intros ctx ok ctx'. unfold Bootstrap.InitializeContextForSnapshot.
      generalize context_files as files. intros files.
      set (ctx0 := SetEmbedderData ctx kAllowWasmCodeGeneration _).
      assert (H0 : GetEmbedderData ctx0 kAllowWasmCodeGeneration
                   = Some (VBoolean true)).
      { unfold GetEmbedderData, ctx0, SetEmbedderData. simpl.
        by rewrite lookup_insert_eq. }
      simpl.
      match goal with
      | |- context [GetPerContextExports ?c2] =>
          pose proof (GetPerContextExports_embedder_data c2) as H3;
          destruct (GetPerContextExports c2) as [maybe_exports ctx3]
      end.
      simpl in H3.
      destruct maybe_exports as [exports|]; simpl.
      - match goal with
        | |- context [Object_Set ctx3 exports ?k ?v] =>
            pose proof (Object_Set_embedder_data ctx3 exports k v) as H4;
            destruct (Object_Set ctx3 exports k v) as [prim_set ctx4]
        end.
        simpl in H4. destruct prim_set as [[]|]; simpl; [| |done].
        + intros H.
          pose proof (run_context_files_embedder_data
                        kAllowWasmCodeGeneration files exports
                        (next_object ctx) ctx4 HCall) as Hr.
          injection H as H. rewrite H in Hr. simpl in Hr. rewrite Hr.
          unfold GetEmbedderData. by rewrite H4, H3.
        + intros [= <- <-]. unfold GetEmbedderData. by rewrite H4, H3.
      - intros [= <- <-]. unfold GetEmbedderData. by rewrite H3. }
    intros ctx ok ctx' [H|H].
    + unfold Bootstrap.AllowWasmCodeGenerationCallback.
      by rewrite (Hsnap ctx ok ctx' H).
    + unfold Bootstrap.InitializeContext in H.
      destruct (InitializeContextForSnapshot ctx) as [[ok1 ctx1]|] eqn:E;
        [|done].
      apply Hsnap in E. simpl in H. destruct ok1; simpl in H.
      * destruct (InitializeContextRuntime ctx1) as [ctx2|] eqn:E2; [|done].
        simpl in H. injection H as <- <-.
        apply InitializeContextRuntime_same_but in E2
          as (_ & _ & _ & He & _).
        unfold Bootstrap.AllowWasmCodeGenerationCallback, GetEmbedderData.
        rewrite He. unfold GetEmbedderData in E. by rewrite E.
      * injection H as <- <-.
        unfold Bootstrap.AllowWasmCodeGenerationCallback. by rewrite E.
Qed.

End Scripts.



Lemma NewContext_passed_both_stages_witness :
  match Bootstrap.NewContext unit (sample_LookupAndCompile true) sample_Call 7
          (Just intl_context) with
  | Done (Just ctx') =>
      ∃ ctx0 ctx1,
        Just intl_context = Just ctx0
        ∧ Bootstrap.InitializeContextForSnapshot unit
            (sample_LookupAndCompile true) sample_Call 7 ctx0
          = Done (true, ctx1)
        ∧ InitializeContextRuntime ctx1 = Done ctx'
        ∧ absent_or_fixed "Intl" "v8BreakIterator" ctx'
        ∧ absent_or_fixed "Atomics" "wake" ctx'
  | _ => False
  end
  ∧ Bootstrap.NewContext unit (sample_LookupAndCompile false) sample_Call 7
      (Just intl_context) = Done Nothing.
Proof.
  split.
  - destruct (Bootstrap.NewContext unit (sample_LookupAndCompile true)
                sample_Call 7 (Just intl_context)) as [[ctx'|]|] eqn:E.
    + destruct (NewContext_passed_both_stages unit
                  (sample_LookupAndCompile true) sample_Call 7
                  (Just intl_context)) as (H & _).
      exact (H ctx' E).
    + vm_compute in E. discriminate E.
    + vm_compute in E. discriminate E.
  - destruct (Bootstrap.InitializeContextForSnapshot unit
                (sample_LookupAndCompile false) sample_Call 7 intl_context)
      as [[[] ctx1]|] eqn:E.
    + vm_compute in E. discriminate E.
    + destruct (NewContext_passed_both_stages unit
                  (sample_LookupAndCompile false) sample_Call 7
                  (Just intl_context)) as (_ & _ & H).
      exact (H intl_context ctx1 eq_refl E).
    + vm_compute in E. discriminate E.
Defined.

Lemma AllowWasmCodeGenerationCallback_after_initialization_witness :
  Bootstrap.AllowWasmCodeGenerationCallback 7
    (SetEmbedderData (SetEmbedderData bare_context 7 (VBoolean false))
       8 (VBoolean true))
  = Bootstrap.AllowWasmCodeGenerationCallback 7
      (SetEmbedderData bare_context 7 (VBoolean false))
  ∧ match Bootstrap.InitializeContext unit (sample_LookupAndCompile true)
            sample_Call 7
            (SetEmbedderData intl_context 7 (VBoolean false)) with
    | Done (ok, ctx') =>
        Bootstrap.AllowWasmCodeGenerationCallback 7 ctx' = Some true
    | Fatal => False
    end.
Proof.
  destruct (AllowWasmCodeGenerationCallback_after_initialization unit
              (sample_LookupAndCompile true) sample_Call 7)
    as (_ & H2 & H3).
  split; [by apply H2|].
  destruct (Bootstrap.InitializeContext unit (sample_LookupAndCompile true)
              sample_Call 7 (SetEmbedderData intl_context 7 (VBoolean false)))
    as [[ok ctx']|] eqn:E.
  - exact (H3 (λ _ _ _ _, eq_refl)
             (SetEmbedderData intl_context 7 (VBoolean false)) ok ctx'
             (or_intror E)).
  - vm_compute in E. discriminate E.
Defined.

End BootstrapFacts.

Module IsolateSetupFacts.
Import HeapSizing IsolateSetup.

Lemma sized_keeps_allocator (constrained total : N) (params : CreateParams) :
  array_buffer_allocator
    (SetIsolateCreateParamsForNode constrained total params)
  = array_buffer_allocator params.
Proof.
  unfold SetIsolateCreateParamsForNode.
  destruct (0 <? constrained);
    [destruct (0 <? N.min total constrained)|destruct (0 <? total)]; done.
Qed.

(** X8.  [SetIsolateCreateParamsForNode] leaves the allocator of the
    parameters alone.  Either it leaves the heap constraints alone too, or
    it configures them from a non-zero amount of memory that is the total
    memory or the cgroup constraint, exceeds neither the total memory nor a
    non-zero constraint, and comes with a virtual memory limit of 0.
    Applying it a second time changes nothing. *)
Theorem SetIsolateCreateParamsForNode_bounds
    (constrained total : N) (params : CreateParams) :
  let sized := SetIsolateCreateParamsForNode constrained total params in
  array_buffer_allocator sized = array_buffer_allocator params
  ∧ (sized = params
     ∨ ∃ m, constraints sized = Some (m, 0)
            ∧ 0 < m ∧ m ≤ total ∧ (0 < constrained → m ≤ constrained)
            ∧ (m = total ∨ m = constrained))
  ∧ SetIsolateCreateParamsForNode constrained total sized = sized.
Proof.
  unfold SetIsolateCreateParamsForNode.
  destruct (N.ltb_spec 0 constrained) as [Hc|Hc].
  - destruct (N.ltb_spec 0 (N.min total constrained)) as [Hm|Hm]; simpl.
    + split; [done|]. split; [|done]. right.
      exists (N.min total constrained). split; [done|]. lia.
    + split; [done|]. split; [by left|done].
  - destruct (N.ltb_spec 0 total) as [Ht|Ht]; simpl.
    + split; [done|]. split; [|done]. right. exists total.
      split; [done|]. lia.
    + split; [done|]. split; [by left|done].
Qed.

Section Flags.

Variable MESSAGE_LISTENER_WITH_ERROR_LEVEL : N.
Variable DETAILED_SOURCE_POSITIONS_FOR_PROFILING : N.
Variable default_settings : IsolateSettings.

Local Abbreviation SetIsolateErrorHandlers :=
  (SetIsolateErrorHandlers MESSAGE_LISTENER_WITH_ERROR_LEVEL).
Local Abbreviation SetIsolateMiscHandlers :=
  (SetIsolateMiscHandlers DETAILED_SOURCE_POSITIONS_FOR_PROFILING).
Local Abbreviation SetIsolateUpForNode :=
  (SetIsolateUpForNode MESSAGE_LISTENER_WITH_ERROR_LEVEL
     DETAILED_SOURCE_POSITIONS_FOR_PROFILING).
Local Abbreviation SetIsolateUpForNode_default :=
  (SetIsolateUpForNode_default MESSAGE_LISTENER_WITH_ERROR_LEVEL
     DETAILED_SOURCE_POSITIONS_FOR_PROFILING default_settings).
Local Abbreviation NewIsolate :=
  (NewIsolate MESSAGE_LISTENER_WITH_ERROR_LEVEL
     DETAILED_SOURCE_POSITIONS_FOR_PROFILING default_settings).
Local Abbreviation NewIsolate_allocator :=
  (NewIsolate_allocator MESSAGE_LISTENER_WITH_ERROR_LEVEL
     DETAILED_SOURCE_POSITIONS_FOR_PROFILING default_settings).

Lemma installed_or_default given fallback :
  installed given fallback (Some (or_default given fallback)).
Proof. by destruct given. Qed.

(** X9.  After [SetIsolateUpForNode] none of the six callbacks of the
    isolate is unset, whatever was there before: each is the embedder's
    function when the settings name one and the runtime's own otherwise, and
    the microtask policy is that of the settings.  Listeners already on the
    isolate stay, and detailed source positions are never switched off.  The
    error handlers and the other handlers can be set in either order. *)
Theorem SetIsolateUpForNode_installs_every_handler
    (isolate : Isolate) (s : IsolateSettings) :
  let ready := SetIsolateUpForNode isolate s in
  installed (should_abort_on_uncaught_exception_callback s)
    cb_ShouldAbortOnUncaughtException
    (abort_on_uncaught_exception_callback ready)
  ∧ installed (fatal_error_callback s) cb_OnFatalError
      (fatal_error_handler ready)
  ∧ installed (prepare_stack_trace_callback s) cb_PrepareStackTraceCallback
      (prepare_stack_trace_handler ready)
  ∧ installed (allow_wasm_code_generation_callback s)
      cb_AllowWasmCodeGenerationCallback
      (allow_wasm_code_generation_handler ready)
  ∧ installed (promise_reject_callback s) cb_PromiseRejectCallback
      (promise_reject_handler ready)
  ∧ installed (host_cleanup_finalization_group_callback s)
      cb_HostCleanupFinalizationGroupCallback
      (host_cleanup_finalization_group_handler ready)
  ∧ microtasks_policy ready = policy s
  ∧ message_listeners isolate `prefix_of` message_listeners ready
  ∧ (detailed_source_positions isolate = true →
     detailed_source_positions ready = true)
  ∧ SetIsolateErrorHandlers (SetIsolateMiscHandlers isolate s) s = ready.
Proof.
  intros ready. subst ready.
  repeat (split; [apply installed_or_default|]).
  split; [done|]. split; [|split; [|done]].
  - simpl. destruct (negb _); [by apply prefix_app_r|done].
  - simpl. intros ->. by destruct (negb _).
Qed.

(** X10.  [NewIsolate]: when [Isolate::Allocate] fails, null is returned
    and neither the platform, the parameters nor any isolate is touched.
    Otherwise the platform registers the isolate first and the engine
    initialises it next, with the parameters as the heap sizing left them.
    The isolate returned has none of its six callbacks unset: each is the
    runtime's own function wherever the default-constructed settings (of
    [node.h]) name none, and the function those settings name otherwise;
    its microtask policy is theirs, it has the runtime's message listener
    and no other exactly when their listener flag is on, and detailed
    source positions exactly when their profiling flag is on.  No other
    isolate is touched. *)
Theorem NewIsolate_registers_before_initializing
    (allocated : option N) (constrained total : N) (params : CreateParams)
    (event_loop platform : N) (w : Engines) :
  (allocated = None →
     NewIsolate allocated constrained total params event_loop platform w
     = (None, params, w))
  ∧ (∀ isolate, allocated = Some isolate →
       ∃ w',
         NewIsolate allocated constrained total params event_loop platform w
         = (Some isolate,
            SetIsolateCreateParamsForNode constrained total params, w')
         ∧ platform_log w'
           = platform_log w
             ++ [RegisterIsolate platform isolate event_loop;
                 IsolateInitialize isolate
                   (SetIsolateCreateParamsForNode constrained total params)]
         ∧ (∃ ready,
              isolates w' !! isolate = Some ready
              ∧ installed
                  (should_abort_on_uncaught_exception_callback
                     default_settings)
                  cb_ShouldAbortOnUncaughtException
                  (abort_on_uncaught_exception_callback ready)
              ∧ installed (fatal_error_callback default_settings)
                  cb_OnFatalError (fatal_error_handler ready)
              ∧ installed (prepare_stack_trace_callback default_settings)
                  cb_PrepareStackTraceCallback
                  (prepare_stack_trace_handler ready)
              ∧ installed
                  (allow_wasm_code_generation_callback default_settings)
                  cb_AllowWasmCodeGenerationCallback
                  (allow_wasm_code_generation_handler ready)
              ∧ installed (promise_reject_callback default_settings)
                  cb_PromiseRejectCallback (promise_reject_handler ready)
              ∧ installed
                  (host_cleanup_finalization_group_callback default_settings)
                  cb_HostCleanupFinalizationGroupCallback
                  (host_cleanup_finalization_group_handler ready)
              ∧ microtasks_policy ready = policy default_settings
              ∧ message_listeners ready
                = (if N.land (flags default_settings)
                        MESSAGE_LISTENER_WITH_ERROR_LEVEL =? 0
                   then []
                   else [(cb_PerIsolateMessageListener,
                          [kMessageError; kMessageWarning])])
              ∧ detailed_source_positions ready
                = negb (N.land (flags default_settings)
                          DETAILED_SOURCE_POSITIONS_FOR_PROFILING =? 0))
         ∧ (∀ other, other ≠ isolate →
              isolates w' !! other = isolates w !! other)).
Proof.
  split; [by intros ->|].
  intros isolate ->. eexists. split; [reflexivity|]. simpl.
  split; [by rewrite <- app_assoc|].
  split.
  - eexists. split; [apply lookup_insert_eq|].
    repeat (split; [apply installed_or_default|]).
    split; [done|]. simpl. split.
    + by destruct (N.land _ MESSAGE_LISTENER_WITH_ERROR_LEVEL =? 0).
    + by destruct (N.land _ DETAILED_SOURCE_POSITIONS_FOR_PROFILING =? 0).
  - intros other Hne. by rewrite lookup_insert_ne.
Qed.

(** X11.  [NewIsolate] with an allocator pointer: the engine is always
    initialised with that very allocator, null included, and with heap
    constraints that are unset exactly when libuv reports no memory. *)
Theorem NewIsolate_allocator_passes_allocator
    (isolate : N) (constrained total : N) (allocator : N)
    (event_loop platform : N) (w : Engines) :
  ∃ params w',
    NewIsolate_allocator (Some isolate) constrained total allocator
      event_loop platform w = (Some isolate, params, w')
    ∧ last (platform_log w') = Some (IsolateInitialize isolate params)
    ∧ array_buffer_allocator params = allocator
    ∧ (constraints params = None ↔ total = 0).
Proof.
  unfold IsolateSetup.NewIsolate_allocator, IsolateSetup.NewIsolate.
  eexists _, _. split; [reflexivity|]. simpl.
  split; [by rewrite last_snoc|].
  split.
  - rewrite sized_keeps_allocator.
    by destruct (N.eqb_spec allocator nullptr) as [->|Hne].
  - assert (Hc : ∀ p, constraints p = None →
                 (constraints (SetIsolateCreateParamsForNode constrained total p)
                  = None ↔ total = 0)).
    { intros p Hp. unfold SetIsolateCreateParamsForNode.
      destruct (N.ltb_spec 0 constrained).
      - destruct (N.ltb_spec 0 (N.min total constrained)); simpl;
          split; try done; lia.
      - destruct (N.ltb_spec 0 total); simpl; split; try done; lia. }
    destruct (allocator =? nullptr); by apply Hc.
Qed.

End Flags.

Lemma SetIsolateCreateParamsForNode_bounds_witness :
  ∃ m, constraints
         (SetIsolateCreateParamsForNode (2 * GiB) (8 * GiB) default_params)
       = Some (m, 0)
       ∧ 0 < m ∧ m ≤ 8 * GiB ∧ (0 < 2 * GiB → m ≤ 2 * GiB)
       ∧ (m = 8 * GiB ∨ m = 2 * GiB).
Proof.
  destruct (SetIsolateCreateParamsForNode_bounds (2 * GiB) (8 * GiB)
              default_params) as (_ & [H|H] & _).
  - discriminate H.
  - exact H.
Defined.

Lemma SetIsolateUpForNode_installs_every_handler_witness :
  fatal_error_handler (IsolateSetup.SetIsolateUpForNode 1 2 blank_isolate
                         sample_settings)
  = Some (cb_embedder 4096)
  ∧ abort_on_uncaught_exception_callback
      (IsolateSetup.SetIsolateUpForNode 1 2 blank_isolate sample_settings)
    = Some cb_ShouldAbortOnUncaughtException
  ∧ detailed_source_positions
      (IsolateSetup.SetIsolateUpForNode 1 2
         (IsolateSetup.SetIsolateUpForNode 1 2 blank_isolate
            {| flags := 2; policy := kExplicit;
               should_abort_on_uncaught_exception_callback := None;
               fatal_error_callback := None;
               prepare_stack_trace_callback := None;
               allow_wasm_code_generation_callback := None;
               promise_reject_callback := None;
               host_cleanup_finalization_group_callback := None |})
         sample_settings) = true.
Proof.
  destruct (SetIsolateUpForNode_installs_every_handler 1 2 blank_isolate
              sample_settings) as (H1 & H2 & _).
  split; [exact H2|]. split; [exact H1|].
  match goal with
  | |- detailed_source_positions
         (IsolateSetup.SetIsolateUpForNode 1 2 ?iso sample_settings) = true =>
      destruct (SetIsolateUpForNode_installs_every_handler 1 2 iso
                  sample_settings) as (_ & _ & _ & _ & _ & _ & _ & _ & H & _)
  end.
  apply H. reflexivity.
Defined.

Lemma NewIsolate_registers_before_initializing_witness :
  (IsolateSetup.NewIsolate 1 2 callback_free_settings None 0 (8 * GiB)
     default_params 5 9 no_engines = (None, default_params, no_engines))
  ∧ (∃ w' ready,
       IsolateSetup.NewIsolate 1 2 callback_free_settings (Some 7) 0
         (8 * GiB) default_params 5 9 no_engines
       = (Some 7, SetIsolateCreateParamsForNode 0 (8 * GiB) default_params, w')
       ∧ platform_log w'
         = [RegisterIsolate 9 7 5;
            IsolateInitialize 7
              (SetIsolateCreateParamsForNode 0 (8 * GiB) default_params)]
       ∧ isolates w' !! 7 = Some ready
       ∧ abort_on_uncaught_exception_callback ready
         = Some cb_ShouldAbortOnUncaughtException
       ∧ fatal_error_handler ready = Some cb_OnFatalError
       ∧ prepare_stack_trace_handler ready
         = Some cb_PrepareStackTraceCallback
       ∧ allow_wasm_code_generation_handler ready
         = Some cb_AllowWasmCodeGenerationCallback
       ∧ promise_reject_handler ready = Some cb_PromiseRejectCallback
       ∧ host_cleanup_finalization_group_handler ready
         = Some cb_HostCleanupFinalizationGroupCallback
       ∧ microtasks_policy ready = kExplicit
       ∧ message_listeners ready
         = [(cb_PerIsolateMessageListener, [kMessageError; kMessageWarning])]
       ∧ detailed_source_positions ready = true)
  ∧ (∃ w' ready,
       IsolateSetup.NewIsolate 1 2 sample_settings (Some 7) 0 (8 * GiB)
         default_params 5 9 no_engines
       = (Some 7, SetIsolateCreateParamsForNode 0 (8 * GiB) default_params, w')
       ∧ isolates w' !! 7 = Some ready
       ∧ fatal_error_handler ready = Some (cb_embedder 4096)
       ∧ promise_reject_handler ready = Some cb_PromiseRejectCallback
       ∧ detailed_source_positions ready = false).
Proof.
  destruct (NewIsolate_registers_before_initializing 1 2
              callback_free_settings None 0 (8 * GiB) default_params 5 9
              no_engines) as [H1 _].
  destruct (NewIsolate_registers_before_initializing 1 2
              callback_free_settings (Some 7) 0 (8 * GiB) default_params 5 9
              no_engines) as [_ H2].
  destruct (NewIsolate_registers_before_initializing 1 2 sample_settings
              (Some 7) 0 (8 * GiB) default_params 5 9 no_engines) as [_ H3].
  split; [by apply H1|]. split.
  - destruct (H2 7 eq_refl)
      as (w' & E & Hlog & (ready & Hiso & A & B & C & D & F & G & P & L & S)
          & _).
    exists w', ready.
    split; [exact E|]. split; [exact Hlog|]. split; [exact Hiso|].
    split; [exact A|]. split; [exact B|]. split; [exact C|].
    split; [exact D|]. split; [exact F|]. split; [exact G|].
    split; [exact P|]. split; [exact L|exact S].
  - destruct (H3 7 eq_refl)
      as (w' & E & _ & (ready & Hiso & _ & B & _ & _ & F & _ & _ & _ & S)
          & _).
    exists w', ready.
    split; [exact E|]. split; [exact Hiso|]. split; [exact B|].
    split; [exact F|exact S].
Defined.

End IsolateSetupFacts.

Module InspectorFacts.
Import Env ThreadIds Inspector ThreadIdFacts.

(** X20.  [GetInspectorParentHandle] aborts exactly on a null
    environment or on the thread id 2^64 - 1, and without the inspector it
    answers an empty handle.  No id handed out by
    [AllocateEnvironmentThreadId] among the first 2^64 - 1 allocations of a
    process is that id, so each of them is accepted. *)
Theorem GetInspectorParentHandle_accepts_allocated_ids {Handle : Type}
    (HAVE_INSPECTOR : bool)
    (GetParentHandle : Environment → N → string → Handle)
    (url : string) :
  (∀ env thread_id,
     GetInspectorParentHandle HAVE_INSPECTOR GetParentHandle env thread_id url
     = Fatal
     ↔ env = None ∨ id thread_id = 2 ^ 64 - 1)
  ∧ (∀ env thread_id handle,
       GetInspectorParentHandle false GetParentHandle env thread_id url
       = Done handle → handle = None)
  ∧ (∀ (n i : nat) t env,
       N.of_nat n ≤ 2 ^ 64 - 1 →
       (allocate_many n next_thread_id_initial).1 !! i = Some t →
       id t ≠ invalid_thread_id
       ∧ GetInspectorParentHandle HAVE_INSPECTOR GetParentHandle (Some env)
           t url ≠ Fatal).
Proof.
  assert (Hfatal : ∀ env thread_id,
            GetInspectorParentHandle HAVE_INSPECTOR GetParentHandle env
              thread_id url = Fatal
            ↔ env = None ∨ id thread_id = 2 ^ 64 - 1).
  { intros env thread_id. unfold GetInspectorParentHandle.
    destruct env as [e|]; [|by split; [left|]].
    destruct (N.eqb_spec (id thread_id) invalid_thread_id) as [He|He].
    - split; [by right|done].
    - destruct HAVE_INSPECTOR; (split; [done|]); by intros [?|?]. }
  split; [exact Hfatal|]. split.
  - intros env thread_id handle. unfold GetInspectorParentHandle.
    destruct env; [|done]. destruct (_ =? _); [done|]. by intros [= <-].
  - intros n i t env Hn Ht.
    assert (Hi : (i < n)%nat).
    { apply lookup_lt_Some in Ht. by rewrite allocate_many_length in Ht. }
    apply allocate_many_lookup in Ht; [|lia].
    assert (Hid : id t ≠ invalid_thread_id)
      by (unfold invalid_thread_id; lia).
    split; [done|]. rewrite Hfatal. by intros [?|?].
Qed.

Lemma GetInspectorParentHandle_accepts_allocated_ids_witness :
  GetInspectorParentHandle (Handle := N) false (λ _ t _, t) (Some sample_env)
    {| id := 2 |} "ws://parent" = Done None
  ∧ id {| id := 2 |} ≠ invalid_thread_id
  ∧ GetInspectorParentHandle (Handle := N) true (λ _ t _, t) (Some sample_env)
      {| id := 2 |} "ws://parent" ≠ Fatal.
Proof.
  split; [reflexivity|].
  assert (Hb : N.of_nat 3 ≤ 2 ^ 64 - 1) by (vm_compute; discriminate).
  destruct (GetInspectorParentHandle_accepts_allocated_ids (Handle := N)
              true (λ _ t _, t) "ws://parent") as (_ & _ & H).
  exact (H 3%nat 2%nat {| id := 2 |} sample_env Hb eq_refl).
Defined.

(** X21.  Environments whose thread ids come from
    [AllocateEnvironmentThreadId] (among the first 2^64 allocations)
    register their main scripts under different names. *)
Theorem main_script_names_differ (n i j : nat) (t1 t2 : ThreadId)
    (env1 env2 : Environment) :
  N.of_nat n ≤ 2 ^ 64 →
  (allocate_many n next_thread_id_initial).1 !! i = Some t1 →
  (allocate_many n next_thread_id_initial).1 !! j = Some t2 →
  i ≠ j →
  thread_id env1 = id t1 → thread_id env2 = id t2 →
  main_script_name env1 ≠ main_script_name env2
  ∧ main_script_name env1 = "embedder_main_" +:+ pretty (N.of_nat i).
Proof.
  intros Hn H1 H2 Hne E1 E2.
  apply (allocate_many_lookup n) in H1; [|done].
  apply (allocate_many_lookup n) in H2; [|done].
  split.
  - unfold main_script_name. intros H.
    apply String.app_inj in H. apply (inj pretty) in H. lia.
  - unfold main_script_name. by rewrite E1, H1.
Qed.

Lemma main_script_names_differ_witness :
  main_script_name (set_stopped sample_env true)
  ≠ main_script_name (sample_new sample_isolate_data 5 [] [] 0 1)
  ∧ main_script_name (set_stopped sample_env true) = "embedder_main_3".
Proof.
  assert (Hb : N.of_nat 4 ≤ 2 ^ 64) by (vm_compute; discriminate).
  destruct (main_script_names_differ 4 3 1 {| id := 3 |} {| id := 1 |}
              (set_stopped sample_env true)
              (sample_new sample_isolate_data 5 [] [] 0 1)
              Hb eq_refl eq_refl) as [H1 H2]; [lia|done|done|].
  split; [exact H1|]. rewrite H2. reflexivity.
Defined.

End InspectorFacts.
